(** * HttpLatencyTester: a shallow embedding of [src/index.ts]

    The program probes one URL over HTTP, directly or through a rotating
    pool of proxies, from a [setInterval] timer.  The embedding follows the
    class method by method:

    - [JS]: the JavaScript values and operators the methods use (binary64
      numbers, the remainder operator [%], array indexing, thrown values,
      parsed JSON);
    - [Prober]: [testDirect], [testWithProxy] and [singleTest], written in
      a small monad that threads the monotonic clock and the instance
      fields and that can raise;
    - [Scheduler]: [runContinuousTesting], as a discrete-event simulation
      of the timer, the probes in flight and the interrupt signal.

    The repository holds two revisions of the file.  They differ in how a
    response body is captured ([body.json()] against [body.text()] plus the
    status code) and in what [logResult] prints; [capture] selects one. *)

From Stdlib Require Import ZArith NArith List String Bool Lia.
From Stdlib Require Import Floats.SpecFloat.
From Stdlib Require DecimalString.
Import ListNotations.

Set Implicit Arguments.

(* ================================================================== *)
(** * JavaScript values *)

Module JS.

Open Scope string_scope.

(** ** Numbers: IEEE 754 binary64 *)

Definition prec : Z := 53.
Definition emax : Z := 1024.

Definition float64 : Type := spec_float.

(** [Number(b)] for a BigInt [b]: the nearest binary64, ties to even. *)
Definition Number_of_bigint (b : Z) : float64 :=
  binary_normalize prec emax b 0 false.

(** The operator [/] on numbers. *)
Definition div (x y : float64) : float64 := SFdiv prec emax x y.

(** The literal [1_000_000]. *)
Definition one_million : float64 :=
  Eval cbv in Number_of_bigint 1000000.

Definition zero : float64 := S754_zero false.

(** [x <= y] on numbers; false when either side is NaN. *)
Definition leb (x y : float64) : bool := SFleb x y.

Definition is_nan (x : float64) : bool :=
  match x with S754_nan => true | _ => false end.

Definition is_zero (x : float64) : bool :=
  match x with S754_zero _ => true | _ => false end.

(** ** Integers held in numbers *)

(** The remainder operator [a % b] on integral numbers with [b <> 0]: the
    result takes the sign of the dividend.  (For [b = 0] JavaScript gives
    NaN; every use in the program is guarded by [length > 0].) *)
Definition rem (a b : Z) : Z := Z.rem a b.

(** [array[i]] for an integral number [i]: [None] is [undefined]. *)
Definition index {A : Type} (array : list A) (i : Z) : option A :=
  if (i <? 0)%Z then None else nth_error array (Z.to_nat i).

Definition length {A : Type} (array : list A) : Z :=
  Z.of_nat (List.length array).

(** ** Numbers as text *)

(** The decimal digits of a natural number. *)
Definition digits (z : Z) : string :=
  DecimalString.NilZero.string_of_uint (N.to_uint (Z.to_N z)).

Definition same_number (a b : Z) : bool :=
  SFeqb (Number_of_bigint a) (Number_of_bigint b).

(** Move the trailing zeros of [s] into the exponent. *)
Fixpoint strip (fuel : nat) (s e : Z) : Z * Z :=
  match fuel with
  | O => (s, e)
  | S fuel' =>
      if ((0 <? s) && (s mod 10 =? 0))%Z then strip fuel' (s / 10) (e + 1)%Z
      else (s, e)
  end.

(** The multiple of [10^e] next to [z] that denotes the same number as
    [z], the closer one if both neighbours do, the even one on a tie. *)
Definition candidate (z e : Z) : option Z :=
  let lo := (z / 10 ^ e)%Z in
  let hi := (lo + 1)%Z in
  let ok_lo := ((0 <? lo)%Z && same_number (lo * 10 ^ e) z)%bool in
  let ok_hi := same_number (hi * 10 ^ e) z in
  match ok_lo, ok_hi with
  | true, true =>
      let below := (z - lo * 10 ^ e)%Z in
      let above := (hi * 10 ^ e - z)%Z in
      if (below <? above)%Z then Some lo
      else if (above <? below)%Z then Some hi
      else if Z.even lo then Some lo else Some hi
  | true, false => Some lo
  | false, true => Some hi
  | false, false => None
  end.

(** The shortest [s] and its exponent [e] with [s * 10^e] denoting the
    number [z]: exponents are tried from the largest down. *)
Fixpoint shortest (fuel : nat) (z e : Z) : Z * Z :=
  match candidate z e with
  | Some s => strip (Z.to_nat e + 25) s e
  | None =>
      match fuel with
      | O => (z, 0%Z)
      | S fuel' => shortest fuel' z (e - 1)%Z
      end
  end.

(** [Number::toString] of a positive integral number: its shortest digits
    followed by zeros up to 21 digits, exponent notation beyond. *)
Definition string_of_positive (z : Z) : string :=
  let n0 := String.length (digits z) in
  let '(s, e) := shortest n0 z (Z.of_nat n0 - 1) in
  let d := digits s in
  let n := (Z.of_nat (String.length d) + e)%Z in
  if (n <=? 21)%Z then
    d ++ DecimalString.NilEmpty.string_of_uint
           (Nat.iter (Z.to_nat e) Decimal.D0 Decimal.Nil)
  else
    match d with
    | String first EmptyString => String first ("e+" ++ digits (n - 1))
    | String first rest => String first ("." ++ rest ++ "e+" ++ digits (n - 1))
    | EmptyString => d
    end.

(** An integral number inside a template literal; [z] stands for the
    number nearest to it. *)
Definition string_of_number (z : Z) : string :=
  match Number_of_bigint z with
  | S754_zero _ => "0"
  | S754_infinity false => "Infinity"
  | S754_infinity true => "-Infinity"
  | S754_nan => "NaN"
  | S754_finite sign m e =>
      (if sign then "-" else "") ++ string_of_positive (Z.shiftl (Zpos m) e)
  end.

(** ** Thrown values *)

Inductive thrown : Type :=
| ErrorObject (message : string)      (* an instance of [Error] *)
| ThrownString (s : string)
| ThrownUndefined
| ThrownNull.

(** [String(v)] for a thrown value that is not an [Error]. *)
Definition String_of (e : thrown) : string :=
  match e with
  | ErrorObject message => "Error: " ++ message
  | ThrownString s => s
  | ThrownUndefined => "undefined"
  | ThrownNull => "null"
  end.

Definition instanceof_Error (e : thrown) : bool :=
  match e with ErrorObject _ => true | _ => false end.

Definition message_of (e : thrown) : string :=
  match e with ErrorObject message => message | _ => "" end.

(** Reading a property of [undefined]. *)
Definition TypeError_undefined (property : string) : thrown :=
  ErrorObject ("Cannot read properties of undefined (reading '"
               ++ property ++ "')").

(** ** Parsed JSON *)

#[local] Unset Elimination Schemes.

Inductive json : Type :=
| JNull
| JBool (b : bool)
| JNumber (x : float64)
| JString (s : string)
| JArray (items : list json)
| JObject (fields : list (string * json)).

#[local] Set Elimination Schemes.

Definition truthy (v : json) : bool :=
  match v with
  | JNull => false
  | JBool b => b
  | JNumber x => negb (is_zero x || is_nan x)
  | JString s => negb (String.eqb s "")
  | JArray _ | JObject _ => true
  end.

Fixpoint lookup (key : string) (fields : list (string * json)) : option json :=
  match fields with
  | [] => None
  | (k, v) :: rest => if String.eqb k key then Some v else lookup key rest
  end.

(** [v.key] for a truthy [v]; [None] is [undefined].  Only objects carry
    the keys the program reads. *)
Definition get (v : json) (key : string) : option json :=
  match v with
  | JObject fields => lookup key fields
  | _ => None
  end.

Definition has_key (key : string) (fields : list (string * json)) : bool :=
  match lookup key fields with
  | Some _ => true
  | None => false
  end.

(** Whether [ToString(v)], as a template literal applies it, returns.
    A parsed object that has a key [toString] of its own hides
    [Object.prototype.toString] behind a value that cannot be called, and
    no [valueOf] it can reach returns a primitive: the conversion throws
    a [TypeError].  An array joins the conversions of its elements. *)
Fixpoint stringifies (v : json) : bool :=
  match v with
  | JObject fields => negb (has_key "toString" fields)
  | JArray items =>
      (fix all (l : list json) : bool :=
         match l with
         | [] => true
         | x :: rest => stringifies x && all rest
         end) items
  | _ => true
  end.

Definition cannot_convert : thrown :=
  ErrorObject "Cannot convert object to primitive value".

(** [x || fallback] where [x] may be [undefined]. *)
Definition or_else (x : option json) (fallback : json) : json :=
  match x with
  | Some v => if truthy v then v else fallback
  | None => fallback
  end.

(** ** Timers *)

(** The delay [setInterval] really uses: a delay below 1 or above
    2^31 - 1 is replaced by 1. *)
Definition timer_delay (intervalMs : Z) : N :=
  if ((intervalMs <? 1) || (2147483647 <? intervalMs))%Z then 1%N
  else Z.to_N intervalMs.

Definition ns_per_ms : N := 1000000.

End JS.

(* ================================================================== *)
(** * Data model *)

Record ProxyConfig : Type := {
  ip : string;
  port : Z;
  username : string;
  password : string
}.

(** The two revisions declare [responseData?: any], respectively
    [statusCode?: number; responseBody?: string]; [None] is an absent
    property. *)
Record LatencyResult : Type := {
  timestamp : Z;
  proxy : string;
  latency : JS.float64;
  success : bool;
  error : option string;
  responseData : option JS.json;
  statusCode : option Z;
  responseBody : option string
}.

Inductive capture : Type :=
| ParsedJson     (* [await response.body.json()] *)
| RawText.       (* [await response.body.text()] and [response.statusCode] *)

(** The instance fields of [HttpLatencyTester]. *)
Record tester : Type := {
  targetUrl : string;
  proxies : list ProxyConfig;
  currentProxyIndex : Z
}.

(** [new HttpLatencyTester(targetUrl, proxies)] *)
Definition new_tester (url : string) (pool : list ProxyConfig) : tester :=
  {| targetUrl := url; proxies := pool; currentProxyIndex := 0 |}.

(* ================================================================== *)
(** * The network and the clocks *)

(** What [undici]'s [request] is called with. *)
Record ProxyAgentOptions : Type := {
  uri : string;
  rejectUnauthorized : bool
}.

Record request : Type := {
  url : string;
  headers : list (string * string);
  dispatcher : option ProxyAgentOptions
}.

Inductive reply (A : Type) : Type :=
| Resolves (a : A)
| Rejects (e : JS.thrown).

Arguments Resolves {A} a.
Arguments Rejects {A} e.

(** A response whose head has arrived: reading the body takes
    [body_elapsed] more nanoseconds and yields, for each of the two
    readers, a value or a rejection. *)
Record response : Type := {
  res_statusCode : Z;
  body_elapsed : N;
  body_json : reply JS.json;
  body_text : reply string
}.

(** One HTTP exchange as the program observes it: after [elapsed]
    nanoseconds either the head of a response arrives or [request]
    (or the [ProxyAgent] constructor before it) throws. *)
Inductive exchange : Type :=
| Responded (elapsed : N) (r : response)
| Failed (elapsed : N) (e : JS.thrown).

(** The environment of a run: the network answers a request dispatched at
    a given instant of the monotonic clock, [new Date()] reads the wall
    clock at that instant, and an interrupt may arrive. *)
Record world : Type := {
  network : N -> request -> exchange;
  wallclock : N -> Z;
  sigint : option N
}.

(* ================================================================== *)
(** * The prober: [testDirect], [testWithProxy], [singleTest] *)

Module Prober.

Import JS.

(** ** Computations that read the clock, reach the instance and may throw *)

Inductive outcome (A : Type) : Type :=
| Returned (a : A)
| Raised (e : thrown).

Arguments Returned {A} a.
Arguments Raised {A} e.

(** What a method can see and change: the monotonic clock, in
    nanoseconds, which moves while the method awaits, and [this]. *)
Record js : Type := {
  clock : N;
  this : tester
}.

Definition M (A : Type) : Type := js -> outcome A * js.

Definition ret {A : Type} (a : A) : M A := fun s => (Returned a, s).

Definition raise {A : Type} (e : thrown) : M A := fun s => (Raised e, s).

Definition bind {A B : Type} (m : M A) (k : A -> M B) : M B :=
  fun s =>
    match m s with
    | (Returned a, s') => k a s'
    | (Raised e, s') => (Raised e, s')
    end.

(** [try { body } catch (error) { handler }]: the handler starts in the
    state the body had reached when it threw. *)
Definition try_catch {A : Type} (body : M A) (handler : thrown -> M A) : M A :=
  fun s =>
    match body s with
    | (Returned a, s') => (Returned a, s')
    | (Raised e, s') => handler e s'
    end.

Declare Scope js_scope.
Delimit Scope js_scope with js.

Notation "x <- m ;; k" := (bind m (fun x => k))
  (at level 61, m at next level, right associativity) : js_scope.
Notation "'try' body 'catch' handler" := (try_catch body handler)
  (at level 61, body at next level, right associativity) : js_scope.

Open Scope js_scope.

Definition get_this : M tester := fun s => (Returned (this s), s).

(** [this.currentProxyIndex = i] *)
Definition set_currentProxyIndex (i : Z) : M unit :=
  fun s =>
    (Returned tt,
     {| clock := clock s;
        this := {| targetUrl := targetUrl (this s);
                   proxies := proxies (this s);
                   currentProxyIndex := i |} |}).

(** [process.hrtime.bigint()] *)
Definition hrtime_bigint : M Z := fun s => (Returned (Z.of_N (clock s)), s).

(** [x.property] where [x] may be [undefined] *)
Definition defined {A : Type} (x : option A) (property : string) : M A :=
  match x with
  | Some a => ret a
  | None => raise (TypeError_undefined property)
  end.

Section Methods.

Variable w : world.
Variable c : capture.

(** [new Date()] *)
Definition new_Date : M Z := fun s => (Returned (wallclock w (clock s)), s).

Definition elapse (dt : N) (s : js) : js :=
  {| clock := clock s + dt; this := this s |}.

(** [await request(url, options)] *)
Definition await_request (req : request) : M response :=
  fun s =>
    match network w (clock s) req with
    | Responded dt r => (Returned r, elapse dt s)
    | Failed dt e => (Raised e, elapse dt s)
    end.

Definition await_reply {A : Type} (dt : N) (r : reply A) : M A :=
  fun s =>
    match r with
    | Resolves a => (Returned a, elapse dt s)
    | Rejects e => (Raised e, elapse dt s)
    end.

(** [await response.body.json()] *)
Definition await_body_json (r : response) : M json :=
  await_reply (body_elapsed r) (body_json r).

(** [await response.body.text()] *)
Definition await_body_text (r : response) : M string :=
  await_reply (body_elapsed r) (body_text r).

Definition accept_language : string * string :=
  ("accept-language", "en-US,en;q=0.9,zh-CN;q=0.8,zh;q=0.7").

(** [Number(end - start) / 1_000_000] *)
Definition milliseconds (start end_ : Z) : float64 :=
  div (Number_of_bigint (end_ - start)) one_million.

(** [error instanceof Error ? error.message : String(error)] *)
Definition describe (error : thrown) : string :=
  if instanceof_Error error then message_of error else String_of error.

(** The object literal of the [try] branch, after the body was read. *)
Definition read_and_succeed (timestamp : Z) (label : string)
    (latency : float64) (r : response) : M LatencyResult :=
  match c with
  | ParsedJson =>
      responseData <- await_body_json r ;;
      ret {| timestamp := timestamp; proxy := label; latency := latency;
             success := true; error := None;
             responseData := Some responseData;
             statusCode := None; responseBody := None |}
  | RawText =>
      responseBody <- await_body_text r ;;
      ret {| timestamp := timestamp; proxy := label; latency := latency;
             success := true; error := None;
             responseData := None;
             statusCode := Some (res_statusCode r);
             responseBody := Some responseBody |}
  end.

(** The [catch] branch. *)
Definition fail_with (timestamp : Z) (label : string) (start : Z)
    (error : thrown) : M LatencyResult :=
  end_ <- hrtime_bigint ;;
  let latency := milliseconds start end_ in
  ret {| timestamp := timestamp; proxy := label; latency := latency;
         success := false; error := Some (describe error);
         responseData := None; statusCode := None; responseBody := None |}.

Definition testDirect : M LatencyResult :=
  start <- hrtime_bigint ;;
  timestamp <- new_Date ;;
  try
    (t <- get_this ;;
     r <- await_request {| url := targetUrl t;
                           headers := [accept_language];
                           dispatcher := None |} ;;
     end_ <- hrtime_bigint ;;
     let latency := milliseconds start end_ in
     read_and_succeed timestamp "direct" latency r)
  catch
    (fun error => fail_with timestamp "direct" start error).

(** The argument is [None] when the caller passes [undefined] (the call
    sites write [proxy!]). *)
Definition testWithProxy (proxyConfig : option ProxyConfig) : M LatencyResult :=
  start <- hrtime_bigint ;;
  timestamp <- new_Date ;;
  cfg <- defined proxyConfig "ip" ;;
  let proxyString := ip cfg ++ ":" ++ string_of_number (port cfg) in
  try
    (let proxyAgent :=
       {| uri := "http://" ++ username cfg ++ ":" ++ password cfg ++ "@"
                 ++ ip cfg ++ ":" ++ string_of_number (port cfg);
          rejectUnauthorized := false |} in
     t <- get_this ;;
     r <- await_request {| url := targetUrl t;
                           headers := [accept_language];
                           dispatcher := Some proxyAgent |} ;;
     end_ <- hrtime_bigint ;;
     let latency := milliseconds start end_ in
     read_and_succeed timestamp proxyString latency r)
  catch
    (fun error => fail_with timestamp proxyString start error).

(** [proxyIndex] is [None] when the optional argument is left out. *)
Definition singleTest (useProxy : bool) (proxyIndex : option Z) : M LatencyResult :=
  t <- get_this ;;
  if useProxy && (0 <? JS.length (proxies t))%Z then
    let index :=
      match proxyIndex with
      | Some i => rem i (JS.length (proxies t))
      | None => currentProxyIndex t
      end in
    let proxy := JS.index (proxies t) index in
    testWithProxy proxy
  else
    testDirect.

End Methods.

End Prober.

(* ================================================================== *)
(** * The scheduler: [runContinuousTesting] *)

Module Scheduler.

Import JS Prober.

Open Scope N_scope.

(** ** The console *)

(** One value per [console.log] or [console.error] call, holding what the
    call interpolates. *)
Inductive line : Type :=
| StartLine (intervalMs : Z)
| TargetLine (url : string)
| ModeLine (mode : string)
| CountLine (count : Z)
| Separator
| ResultLine (timestamp : Z) (ok : bool) (label : string) (latency : float64)
| DataLine (listedAt category title : json)
| StatusCodeLine (code : option Z)
| ResponseBodyLine (body : option string)
| ErrorLine (error : option string)
| CompletedLine (tests : Z) (withErrors : bool)
| SchedulingErrorLine (error : thrown)
| ForcedLine (tests : Z).

Definition NA : json := JString "N/A".

(** What a piece of [logResult] does: the lines it prints, and whether
    it returns or throws after them. *)
Definition printing : Type := list line * outcome unit.

Definition prints (lines : list line) : printing := (lines, Returned tt).

(** [first; next]: [next] runs only if [first] returns. *)
Definition and_then (first next : printing) : printing :=
  match snd first with
  | Returned _ => ((fst first ++ fst next)%list, snd next)
  | Raised e => first
  end.

(** The body of [if (result.success && result.responseData)] in the
    revision that parses JSON.  The template literal converts the three
    fields to text before anything is printed; a field that cannot be
    converted makes it throw. *)
Definition data_detail (payload : json) : printing :=
  match get payload "data" with
  | Some data =>
      if truthy data then
        let listedAt := or_else (get data "first_listed_at") NA in
        let category := or_else (get data "category") NA in
        let title := or_else (get data "title") NA in
        if stringifies listedAt && stringifies category && stringifies title
        then prints [DataLine listedAt category title]
        else ([], Raised cannot_convert)
      else prints []
  | None => prints []
  end.

(** [logResult], one definition per revision. *)
Definition logResult (c : capture) (result : LatencyResult) : printing :=
  and_then
    (prints [ResultLine (timestamp result) (success result) (proxy result)
               (latency result)])
    match c with
    | ParsedJson =>
        and_then
          match success result, responseData result with
          | true, Some payload =>
              if truthy payload then data_detail payload else prints []
          | _, _ => prints []
          end
          (prints (if negb (success result) then [ErrorLine (error result)] else []))
    | RawText =>
        prints
          ((if success result
            then [StatusCodeLine (statusCode result);
                  ResponseBodyLine (responseBody result)]
            else [])
           ++ (if negb (success result) then [ErrorLine (error result)] else [])
           ++ [Separator])
    end.

(** ** The state of a run *)

(** How a tick dispatched its probe; [Via None] is a call of
    [testWithProxy] on [undefined]. *)
Inductive route : Type :=
| Direct
| Via (proxy : option ProxyConfig).

(** A probe whose promise has not settled yet, and what it settles to. *)
Record flight : Type := {
  settles_at : N;
  settled : outcome LatencyResult;
  routed : route
}.

(** The instance, the variables the timer callback closes over, the timer
    ([interval] holds its next expiry, [None] once it is cleared), the
    probes in flight, and what was printed.  [dispatched] records the
    route of every tick, in order; the program does not read it. *)
Record sched : Type := {
  self : tester;
  testsCompleted : Z;
  interval : option N;
  in_flight : list flight;
  console : list line;
  now : N;
  dispatched : list route
}.

Record schedule : Type := {
  intervalMs : Z;
  useProxy : bool;
  count : Z
}.

Section Run.

Variable w : world.
Variable c : capture.
Variable p : schedule.

(** The period of the timer, in nanoseconds. *)
Definition period : N := timer_delay (intervalMs p) * ns_per_ms.

Definition proxy_mode (t : tester) : bool :=
  useProxy p && (0 <? JS.length (proxies t))%Z.

Definition log (s : sched) (lines : list line) : sched :=
  {| self := self s; testsCompleted := testsCompleted s;
     interval := interval s; in_flight := in_flight s;
     console := console s ++ lines; now := now s;
     dispatched := dispatched s |}.

Definition clearInterval (s : sched) : sched :=
  {| self := self s; testsCompleted := testsCompleted s;
     interval := None; in_flight := in_flight s;
     console := console s; now := now s;
     dispatched := dispatched s |}.

(** [testsCompleted++] *)
Definition increment (s : sched) : sched :=
  {| self := self s; testsCompleted := (testsCompleted s + 1)%Z;
     interval := interval s; in_flight := in_flight s;
     console := console s; now := now s;
     dispatched := dispatched s |}.

(** Run a synchronous piece of a method on the instance. *)
Definition on_self {A : Type} (m : M A) (s : sched) : sched :=
  {| self := this (snd (m {| clock := now s; this := self s |}));
     testsCompleted := testsCompleted s;
     interval := interval s; in_flight := in_flight s;
     console := console s; now := now s;
     dispatched := dispatched s |}.

(** Start a probe: its promise settles when the probe's own clock says
    so; until then it is in flight. *)
Definition dispatch (via : route) (probe : M LatencyResult) (s : sched) : sched :=
  let '(r, j) := probe {| clock := now s; this := self s |} in
  {| self := self s; testsCompleted := testsCompleted s;
     interval := interval s;
     in_flight := in_flight s
                  ++ [{| settles_at := clock j; settled := r; routed := via |}];
     console := console s; now := now s;
     dispatched := dispatched s ++ [via] |}.

(** The timer fires at [t]: it is re-armed, and the callback runs up to
    its [await]. *)
Definition tick (t : N) (s : sched) : sched :=
  let s := {| self := self s; testsCompleted := testsCompleted s;
              interval := Some (t + period); in_flight := in_flight s;
              console := console s; now := t;
              dispatched := dispatched s |} in
  if proxy_mode (self s) then
    let proxy := JS.index (proxies (self s)) (currentProxyIndex (self s)) in
    dispatch (Via proxy) (testWithProxy w c proxy) s
  else
    dispatch Direct (testDirect w c) s.

(** [this.currentProxyIndex = (this.currentProxyIndex + 1) % this.proxies.length] *)
Definition advance : M unit :=
  (t <- get_this ;;
   set_currentProxyIndex (rem (currentProxyIndex t + 1) (JS.length (proxies t))))%js.

(** The end of both branches of the callback. *)
Definition finish (withErrors : bool) (s : sched) : sched :=
  let s := increment s in
  if (testsCompleted s >=? count p)%Z then
    clearInterval (log s [CompletedLine (testsCompleted s) withErrors])
  else s.

(** The [catch] block of the callback. *)
Definition caught (error : thrown) (s : sched) : sched :=
  let s := log s [SchedulingErrorLine error] in
  finish true s.

(** The promise of flight [f] settles: the callback resumes after its
    [await], in the [try] block or, when the promise rejected, in the
    [catch] block.  The [try] block ends in the [catch] block too when
    [logResult] throws, after the cursor has moved and after the lines
    [logResult] had printed. *)
Definition resume (f : flight) (rest : list flight) (s : sched) : sched :=
  let s := {| self := self s; testsCompleted := testsCompleted s;
              interval := interval s; in_flight := rest;
              console := console s; now := settles_at f;
              dispatched := dispatched s |} in
  match settled f with
  | Returned result =>
      let s := match routed f with
               | Via _ => on_self advance s
               | Direct => s
               end in
      let printed := logResult c result in
      let s := log s (fst printed) in
      match snd printed with
      | Returned _ => finish false s
      | Raised error => caught error s
      end
  | Raised error => caught error s
  end.

(** The [SIGINT] listener. *)
Definition interrupt (t : N) (s : sched) : sched :=
  {| self := self s; testsCompleted := testsCompleted s;
     interval := None; in_flight := [];
     console := console s ++ [ForcedLine (testsCompleted s)];
     now := t; dispatched := dispatched s |}.

(** ** The event loop *)

Inductive event : Type :=
| Expire (t : N)
| Settle (f : flight) (rest : list flight).

Definition event_time (e : event) : N :=
  match e with
  | Expire t => t
  | Settle f _ => settles_at f
  end.

(** The flight that settles first, the older one among equals. *)
Fixpoint earliest (fs : list flight) : option (flight * list flight) :=
  match fs with
  | [] => None
  | f :: rest =>
      match earliest rest with
      | None => Some (f, [])
      | Some (g, others) =>
          if (settles_at f <=? settles_at g)%N then Some (f, rest)
          else Some (g, f :: others)
      end
  end.

(** A timer that is due runs before a promise that settles at the same
    instant. *)
Definition next_event (s : sched) : option event :=
  match interval s, earliest (in_flight s) with
  | None, None => None
  | Some t, None => Some (Expire t)
  | None, Some (f, rest) => Some (Settle f rest)
  | Some t, Some (f, rest) =>
      if (t <=? settles_at f)%N then Some (Expire t) else Some (Settle f rest)
  end.

Definition interrupted_by (t : N) : bool :=
  match sigint w with
  | Some i => (i <=? t)%N
  | None => false
  end.

Definition handle (e : event) (s : sched) : sched :=
  match e with
  | Expire t => tick t s
  | Settle f rest => resume f rest s
  end.

(** One turn of the event loop; [None] when nothing is left to run. *)
Definition step (s : sched) : option sched :=
  match next_event s with
  | None => None
  | Some e =>
      if interrupted_by (event_time e)
      then Some (interrupt (match sigint w with Some i => i | None => now s end) s)
      else Some (handle e s)
  end.

(** The state after [n] turns (or at the end of the run, if that comes
    first). *)
Fixpoint turns (n : nat) (s : sched) : sched :=
  match n with
  | O => s
  | S n' =>
      match step s with
      | None => s
      | Some s' => turns n' s'
      end
  end.

(** The final state, when the run ends within [fuel] turns. *)
Fixpoint run (fuel : nat) (s : sched) : option sched :=
  match step s with
  | None => Some s
  | Some s' =>
      match fuel with
      | O => None
      | S fuel' => run fuel' s'
      end
  end.

(** [runContinuousTesting(intervalMs, useProxy, count)] called at instant
    [t0]: the state when the call returns. *)
Definition runContinuousTesting (t0 : N) (t : tester) : sched :=
  {| self := t;
     testsCompleted := 0;
     interval := Some (t0 + period);
     in_flight := [];
     console := [StartLine (intervalMs p);
                 TargetLine (targetUrl t);
                 ModeLine (if proxy_mode t then "Proxy rotation"
                           else "Direct connection");
                 CountLine (count p);
                 Separator];
     now := t0;
     dispatched := [] |}.

End Run.

(** ** Observations *)

Definition is_result (l : line) : bool :=
  match l with
  | ResultLine _ _ _ _ => true
  | _ => false
  end.

Definition results (lines : list line) : nat :=
  List.length (filter is_result lines).

(** The number of results handed to the console. *)
Definition emitted (s : sched) : nat := results (console s).

Fixpoint labels (lines : list line) : list string :=
  match lines with
  | [] => []
  | ResultLine _ _ label _ :: rest => label :: labels rest
  | _ :: rest => labels rest
  end.

End Scheduler.

(* ================================================================== *)
(** * Vocabulary of the specification *)

Module Spec.

Import JS Prober Scheduler.

Open Scope string_scope.
Open Scope list_scope.

(** ** Probes *)

(** A probe goes direct ([None]) or through a proxy entry. *)
Definition probe (w : world) (c : capture) (via : option ProxyConfig) : M LatencyResult :=
  match via with
  | None => testDirect w c
  | Some cfg => testWithProxy w c (Some cfg)
  end.

Definition label_of (via : option ProxyConfig) : string :=
  match via with
  | None => "direct"
  | Some cfg => ip cfg ++ ":" ++ string_of_number (port cfg)
  end.

Definition agent_of (cfg : ProxyConfig) : ProxyAgentOptions :=
  {| uri := "http://" ++ username cfg ++ ":" ++ password cfg ++ "@"
            ++ ip cfg ++ ":" ++ string_of_number (port cfg);
     rejectUnauthorized := false |}.

(** The request a probe hands to the network. *)
Definition request_of (t : tester) (via : option ProxyConfig) : request :=
  {| url := targetUrl t;
     headers := [accept_language];
     dispatcher := option_map agent_of via |}.

(** The rejection, if any, of the body reader the revision uses. *)
Definition body_failure (c : capture) (r : response) : option thrown :=
  match c with
  | ParsedJson => match body_json r with Rejects e => Some e | Resolves _ => None end
  | RawText => match body_text r with Rejects e => Some e | Resolves _ => None end
  end.

(** The transport error of an exchange, with the time it took to show. *)
Definition failure_of (c : capture) (x : exchange) : option (thrown * N) :=
  match x with
  | Failed dt e => Some (e, dt)
  | Responded dt r =>
      match body_failure c r with
      | Some e => Some (e, (dt + body_elapsed r)%N)
      | None => None
      end
  end.

(** How long after its start a probe reads the clock for the last time:
    when the head of the response arrives or, on failure, when the error
    is caught. *)
Definition measured (c : capture) (x : exchange) : N :=
  match x with
  | Failed dt _ => dt
  | Responded dt r =>
      match body_failure c r with
      | Some _ => (dt + body_elapsed r)%N
      | None => dt
      end
  end.

(** How long after its start a probe's promise settles. *)
Definition round_trip (x : exchange) : N :=
  match x with
  | Failed dt _ => dt
  | Responded dt r => (dt + body_elapsed r)%N
  end.

(** The failed result the [catch] block builds. *)
Definition failed_result (timestamp : Z) (label : string) (latency : float64)
    (e : thrown) : LatencyResult :=
  {| timestamp := timestamp; proxy := label; latency := latency;
     success := false; error := Some (describe e);
     responseData := None; statusCode := None; responseBody := None |}.

Definition is_some {A : Type} (x : option A) : bool :=
  match x with Some _ => true | None => false end.

(** The success payload of a result: [responseData] in one revision,
    [statusCode] and [responseBody] in the other. *)
Definition payload_present (c : capture) (r : LatencyResult) : bool :=
  match c with
  | ParsedJson => is_some (responseData r)
  | RawText => is_some (statusCode r) && is_some (responseBody r)
  end.

Definition payload_absent (r : LatencyResult) : bool :=
  negb (is_some (responseData r))
  && negb (is_some (statusCode r))
  && negb (is_some (responseBody r)).

(** Exactly one of payload and error, as the success flag says. *)
Definition exactly_one (c : capture) (r : LatencyResult) : bool :=
  if success r
  then payload_present c r && negb (is_some (error r))
  else is_some (error r) && payload_absent r.

(** The error field holds a description: some text, not the empty
    string. *)
Definition described (r : LatencyResult) : Prop :=
  exists text, error r = Some text /\ text <> EmptyString.

(** A number that is neither NaN nor negative. *)
Definition not_negative (x : float64) : Prop :=
  match x with
  | S754_zero s | S754_infinity s | S754_finite s _ _ => s = false
  | S754_nan => False
  end.

(** A property of what a call returns; a call that throws returns
    nothing. *)
Definition returns {A : Type} (P : A -> Prop) (call : outcome A * js) : Prop :=
  match fst call with
  | Returned a => P a
  | Raised _ => True
  end.

(** ** Schedules *)

(** The cursor points into the pool (any cursor does when the pool is
    empty, where it is never read). *)
Definition well_formed (t : tester) : Prop :=
  proxies t = [] \/ (0 <= currentProxyIndex t < JS.length (proxies t))%Z.

(** No probe overruns the interval. *)
Definition no_overrun (w : world) (p : schedule) : Prop :=
  forall (t : N) (req : request), (round_trip (network w t req) < period p)%N.

(** After any number of turns at most one probe is in flight, and the
    timer only fires when none is. *)
Definition non_reentrant (w : world) (c : capture) (p : schedule)
    (t0 : N) (t : tester) : Prop :=
  forall n : nat,
    let s := turns w c p n (runContinuousTesting p t0 t) in
    (List.length (in_flight s) <= 1)%nat
    /\ (forall due : N, next_event s = Some (Expire due) -> in_flight s = []).

(** The route of tick [k] when the pool is walked round-robin from
    cursor [c0]. *)
Definition rotation (pool : list ProxyConfig) (c0 : Z) (k : nat) : route :=
  Via (JS.index pool ((c0 + Z.of_nat k) mod JS.length pool)%Z).

(** At most one probe is in flight, and it settles before the timer is
    due again. *)
Definition one_in_flight (s : sched) : Prop :=
  match in_flight s with
  | [] => True
  | [f] =>
      match interval s with
      | Some due => (settles_at f < due)%N
      | None => True
      end
  | _ => False
  end.

(** The number of probes a run without overrun goes through: the counter
    is compared with the count after it was incremented, so the first
    probe always runs. *)
Definition target (p : schedule) : Z := Z.max 1 (count p).

(** Where a run started on [t] stands after [k] ticks whose probes have
    all settled. *)
Definition route_at (p : schedule) (t : tester) (k : nat) : route :=
  if proxy_mode p t then rotation (proxies t) (currentProxyIndex t) k else Direct.

Definition cursor_at (p : schedule) (t : tester) (k : nat) : Z :=
  if proxy_mode p t
  then ((currentProxyIndex t + Z.of_nat k) mod JS.length (proxies t))%Z
  else currentProxyIndex t.

Record after_cycles (p : schedule) (t : tester) (k : nat) (s : sched) : Prop := {
  ac_idle : in_flight s = [];
  ac_count : testsCompleted s = Z.of_nat k;
  ac_armed : (Z.of_nat k < target p)%Z -> exists due, interval s = Some due;
  ac_cleared : (target p <= Z.of_nat k)%Z -> interval s = None;
  ac_emitted : emitted s = k;
  ac_url : targetUrl (self s) = targetUrl t;
  ac_pool : proxies (self s) = proxies t;
  ac_cursor : currentProxyIndex (self s) = cursor_at p t k;
  ac_routes : dispatched s = map (route_at p t) (seq 0 k)
}.

(** Every probe seen so far went direct. *)
Definition direct_flight (f : flight) : Prop :=
  routed f = Direct
  /\ match settled f with
     | Returned r => proxy r = "direct"
     | Raised _ => False
     end.

Record all_direct (s : sched) : Prop := {
  ad_routes : Forall (eq Direct) (dispatched s);
  ad_flights : Forall direct_flight (in_flight s);
  ad_labels : Forall (eq "direct") (labels (console s))
}.

Definition resolves (f : flight) : Prop :=
  exists r, settled f = Returned r.

Definition is_scheduling_error (l : line) : bool :=
  match l with
  | SchedulingErrorLine _ => true
  | _ => false
  end.

(** The cursor points into the pool and every promise in flight
    resolves. *)
Record healthy (s : sched) : Prop := {
  hl_cursor : well_formed (self s);
  hl_flights : Forall resolves (in_flight s)
}.

(** The error with which the callback of a settled promise lands in its
    [catch] block, if it does: the rejection of the promise, or what
    [logResult] throws. *)
Definition callback_error (c : capture) (o : outcome LatencyResult) : option thrown :=
  match o with
  | Raised e => Some e
  | Returned r =>
      match snd (logResult c r) with
      | Raised e => Some e
      | Returned _ => None
      end
  end.

(** What the callback prints before it compares the counter with the
    count. *)
Definition callback_lines (c : capture) (o : outcome LatencyResult) : list line :=
  match o with
  | Raised e => []
  | Returned r => fst (logResult c r)
  end
  ++ match callback_error c o with
     | Some e => [SchedulingErrorLine e]
     | None => []
     end.

Definition is_error_line (l : line) : bool :=
  match l with
  | ErrorLine _ => true
  | _ => false
  end.

(** The console shows no scheduling error. *)
Definition never_caught (s : sched) : Prop :=
  Forall (fun l => is_scheduling_error l = false) (console s).

(** The same schedule with proxy mode off. *)
Definition direct_only (p : schedule) : schedule :=
  {| intervalMs := intervalMs p; useProxy := false; count := count p |}.

(** ** Sample environments *)

Definition answer (dt : N) : exchange :=
  Responded dt {| res_statusCode := 200; body_elapsed := 0;
                  body_json := Resolves (JObject []);
                  body_text := Resolves "{}" |}.

(** Every exchange takes 2.5 s. *)
Definition slow_world : world :=
  {| network := fun _ _ => answer 2500000000;
     wallclock := fun t => Z.of_N t;
     sigint := None |}.

(** Every exchange takes 0.3 s. *)
Definition fast_world : world :=
  {| network := fun _ _ => answer 300000000;
     wallclock := fun t => Z.of_N t;
     sigint := None |}.

(** Every exchange is refused after 1 ms. *)
Definition dead_world : world :=
  {| network := fun _ _ => Failed 1000000 (ErrorObject "connect ECONNREFUSED");
     wallclock := fun t => Z.of_N t;
     sigint := None |}.

(** Every exchange is rejected after 1 ms with [new Error('')]. *)
Definition silent_world : world :=
  {| network := fun _ _ => Failed 1000000 (ErrorObject EmptyString);
     wallclock := fun t => Z.of_N t;
     sigint := None |}.

(** The network of [fast_world], and an interrupt 2.5 s into the run. *)
Definition interrupted_world : world :=
  {| network := fun _ _ => answer 300000000;
     wallclock := fun t => Z.of_N t;
     sigint := Some 2500000000%N |}.

(** A body that parses, and whose title cannot be turned into text. *)
Definition unprintable : json :=
  JObject [("data", JObject [("title", JObject [("toString", JNull)])])].

Definition quoted (s : string) : string :=
  (String (Ascii.ascii_of_nat 34) s ++ String (Ascii.ascii_of_nat 34) "")%string.

(** Every exchange takes 0.3 s and answers with that body. *)
Definition unprintable_world : world :=
  {| network := fun _ _ =>
       Responded 300000000
         {| res_statusCode := 200; body_elapsed := 0;
            body_json := Resolves unprintable;
            body_text := Resolves ("{" ++ quoted "data" ++ ":{" ++ quoted "title"
                                   ++ ":{" ++ quoted "toString" ++ ":null}}}")%string |};
     wallclock := fun t => Z.of_N t;
     sigint := None |}.

Definition proxyA : ProxyConfig :=
  {| ip := "10.0.0.1"; port := 8080; username := "u"; password := "p" |}.

Definition proxyB : ProxyConfig :=
  {| ip := "10.0.0.2"; port := 8081; username := "u"; password := "p" |}.

Definition every_second (useProxy : bool) (count : Z) : schedule :=
  {| intervalMs := 1000; useProxy := useProxy; count := count |}.

(** The probe of the first tick in [unprintable_world], through
    [proxyA]. *)
Definition unprintable_result : LatencyResult :=
  {| timestamp := 0; proxy := "10.0.0.1:8080";
     latency := milliseconds 0 300000000;
     success := true; error := None; responseData := Some unprintable;
     statusCode := None; responseBody := None |}.

Definition unprintable_flight : flight :=
  {| settles_at := 300000000; settled := Returned unprintable_result;
     routed := Via (Some proxyA) |}.

End Spec.

(* ================================================================== *)
(** * The entry point: [main] *)

Module Program.

Import JS Prober Scheduler Spec.

Open Scope string_scope.
Open Scope list_scope.

Definition main_targetUrl : string :=
  "https://api-manager.upbit.com/api/v1/announcements/5285".

Definition main_proxy : ProxyConfig :=
  {| ip := "38.154.227.167"; port := 5868;
     username := "ajjdymmk"; password := "din6lshestcq" |}.

(** The default of the parameter [count] of [runContinuousTesting]. *)
Definition default_count : Z := 10.

(** The one call that is not commented out: [runContinuousTesting(1000,
    true)] in the revision that parses JSON, [runContinuousTesting(1100,
    false)] in the other; [count] is left to its default. *)
Definition main_schedule (c : capture) : schedule :=
  match c with
  | ParsedJson => {| intervalMs := 1000; useProxy := true; count := default_count |}
  | RawText => {| intervalMs := 1100; useProxy := false; count := default_count |}
  end.

Definition main_banner (c : capture) : string :=
  match c with
  | ParsedJson => "=== Testing with Proxy Rotation ==="
  | RawText => "=== Testing Direct Connection ==="
  end.

(** [main()] entered at instant [t0]: the banner it prints and the state
    in which the call of [runContinuousTesting] leaves the program. *)
Definition main (c : capture) (t0 : N) : string * sched :=
  let tester := new_tester main_targetUrl [main_proxy] in
  (main_banner c, runContinuousTesting (main_schedule c) t0 tester).

End Program.

(* ================================================================== *)
(** * Vocabulary for whole runs *)

Module Behaviour.

Import JS Prober Scheduler Spec.

Open Scope string_scope.
Open Scope list_scope.

(** ** Counting what was printed *)

Definition scheduling_errors (lines : list line) : nat :=
  List.length (filter is_scheduling_error lines).

Definition is_forced (l : line) : bool :=
  match l with
  | ForcedLine _ => true
  | _ => false
  end.

Definition forced (lines : list line) : nat :=
  List.length (filter is_forced lines).

(** The counter against the console: every callback that ended has
    printed a result, a scheduling error, or both. *)
Definition counted (s : sched) : Prop :=
  (Z.of_nat (emitted s) <= testsCompleted s)%Z
  /\ (Z.of_nat (scheduling_errors (console s)) <= testsCompleted s)%Z
  /\ (testsCompleted s <= Z.of_nat (emitted s + scheduling_errors (console s)))%Z.

Definition is_completed (l : line) : bool :=
  match l with
  | CompletedLine _ _ => true
  | _ => false
  end.

(** The number of completion notices printed. *)
Definition completions (lines : list line) : nat :=
  List.length (filter is_completed lines).

(** A line that interpolates no [undefined]. *)
Definition defined_fields (l : line) : bool :=
  match l with
  | StatusCodeLine None | ResponseBodyLine None | ErrorLine None => false
  | _ => true
  end.

(** A data line none of whose fields is falsy, and all of whose fields
    can be turned into text. *)
Definition printable_fields (l : line) : bool :=
  match l with
  | DataLine listedAt category title =>
      truthy listedAt && truthy category && truthy title
      && stringifies listedAt && stringifies category && stringifies title
  | _ => true
  end.

Definition is_detail (l : line) : bool :=
  match l with
  | DataLine _ _ _ | StatusCodeLine _ | ResponseBodyLine _ => true
  | _ => false
  end.

(** Every scheduling error on the console is the [TypeError] of the
    template literal of [logResult]. *)
Definition template_errors_only (c : capture) (s : sched) : Prop :=
  Forall (fun l => is_scheduling_error l = true ->
                   c = ParsedJson /\ l = SchedulingErrorLine cannot_convert)
    (console s).

(** [f] holds of the [n] integers from [start] on. *)
Fixpoint all_from (f : Z -> bool) (start : Z) (n : nat) : bool :=
  match n with
  | O => true
  | S k => f start && all_from f (start + 1)%Z k
  end.

(** ** Routes *)

(** A route through an entry of the pool. *)
Definition through (pool : list ProxyConfig) (r : route) : Prop :=
  exists cfg, r = Via (Some cfg) /\ In cfg pool.

(** ** The run as the schedule lays it out *)

(** The instant of tick [k], counting from 0. *)
Definition tick_time (p : schedule) (t0 : N) (k : nat) : N :=
  (t0 + N.of_nat (S k) * period p)%N.

(** The instance as tick [k] finds it when every earlier probe has
    settled. *)
Definition tester_at (p : schedule) (t : tester) (k : nat) : tester :=
  {| targetUrl := targetUrl t;
     proxies := proxies t;
     currentProxyIndex := cursor_at p t k |}.

(** The route a tick takes on instance [t], and the probe of a route. *)
Definition route_of (p : schedule) (t : tester) : route :=
  if proxy_mode p t
  then Via (JS.index (proxies t) (currentProxyIndex t))
  else Direct.

Definition probe_of_route (w : world) (c : capture) (r : route) : M LatencyResult :=
  match r with
  | Direct => testDirect w c
  | Via x => testWithProxy w c x
  end.

(** What the probe of tick [k] settles to. *)
Definition result_of_tick (w : world) (c : capture) (p : schedule)
    (t0 : N) (t : tester) (k : nat) : outcome LatencyResult :=
  fst (probe_of_route w c (route_of p (tester_at p t k))
         {| clock := tick_time p t0 k; this := tester_at p t k |}).

(** Whether the callback of tick [k - 1], the last one before the
    counter reads [k], ended in its [catch] block. *)
Definition ended_with_errors (w : world) (c : capture) (p : schedule)
    (t0 : N) (t : tester) (k : nat) : bool :=
  match k with
  | O => false
  | S j => is_some (callback_error c (result_of_tick w c p t0 t j))
  end.

(** The console after [n] ticks: the header, then the lines of each
    probe in tick order. *)
Definition transcript (w : world) (c : capture) (p : schedule)
    (t0 : N) (t : tester) (n : nat) : list line :=
  console (runContinuousTesting p t0 t)
  ++ flat_map (fun k => callback_lines c (result_of_tick w c p t0 t k)) (seq 0 n).

Record on_schedule (w : world) (c : capture) (p : schedule) (t0 : N)
    (t : tester) (k : nat) (s : sched) : Prop := {
  os_idle : in_flight s = [];
  os_count : testsCompleted s = Z.of_nat k;
  os_timer : interval s
             = if (Z.of_nat k <? target p)%Z then Some (tick_time p t0 k) else None;
  os_self : self s = tester_at p t k;
  os_console : console s
               = transcript w c p t0 t k
                 ++ (if (Z.of_nat k <? target p)%Z then []
                     else [CompletedLine (Z.of_nat k)
                             (ended_with_errors w c p t0 t k)])
}.

(** ** Invariants of every run *)

(** In proxy mode on a non-empty pool: the cursor points into the pool,
    every probe went or goes through an entry of the pool, and every
    label printed is the label of an entry. *)
Record rotating (pool : list ProxyConfig) (s : sched) : Prop := {
  rt_pool : proxies (self s) = pool;
  rt_cursor : (0 <= currentProxyIndex (self s) < JS.length pool)%Z;
  rt_routes : Forall (through pool) (dispatched s);
  rt_flights : Forall (fun f => exists cfg r,
                         In cfg pool /\ routed f = Via (Some cfg)
                         /\ settled f = Returned r
                         /\ proxy r = label_of (Some cfg)) (in_flight s);
  rt_labels : Forall (fun l => In l (map (fun cfg => label_of (Some cfg)) pool))
                (labels (console s))
}.

(** The run from [s] ends. *)
Definition ends (w : world) (c : capture) (p : schedule) (s : sched) : Prop :=
  exists fuel final, run w c p fuel s = Some final.

(** The notice of a forced shutdown is printed at most once, last, with
    the counter, and then nothing is left to run. *)
Definition shut_down (s : sched) : Prop :=
  forced (console s) = 0%nat
  \/ (forced (console s) = 1%nat
      /\ last (console s) Separator = ForcedLine (testsCompleted s)
      /\ interval s = None
      /\ in_flight s = []).

End Behaviour.

(* ================================================================== *)
(** * More sample environments *)

Module Samples.

Import JS Prober Scheduler Spec.

Open Scope string_scope.
Open Scope list_scope.

(** Answers like [fast_world] at instant 0 and refuses every later
    request. *)
Definition flaky_world : world :=
  {| network := fun t _ =>
                  if (t =? 0)%N then answer 300000000
                  else Failed 1000000 (ErrorObject "connect ECONNREFUSED");
     wallclock := fun t => Z.of_N t;
     sigint := None |}.

(** The head of the response arrives after 0.1 s, the body takes 0.9 s
    more. *)
Definition heavy_world : world :=
  {| network := fun _ _ =>
                  Responded 100000000
                    {| res_statusCode := 200; body_elapsed := 900000000;
                       body_json := Resolves (JObject []);
                       body_text := Resolves "{}" |};
     wallclock := fun t => Z.of_N t;
     sigint := None |}.

End Samples.

(* ================================================================== *)
(** * Facts about binary64 arithmetic *)

Module FloatFacts.

Import JS Spec.

(** Rounding a mantissa that is not negative never yields NaN or a
    negative number: shifting right and rounding to nearest keep the
    sign. *)

Lemma shr_1_nonneg (mrs : shr_record) :
  (0 <= shr_m mrs)%Z -> (0 <= shr_m (shr_1 mrs))%Z.
Proof.
  destruct mrs as [m r s]; cbn [shr_m].
  destruct m as [|[q|q|]|q]; cbn; lia.
Qed.

Lemma iter_pos_shr_1_nonneg (n : positive) :
  forall mrs, (0 <= shr_m mrs)%Z -> (0 <= shr_m (iter_pos shr_1 n mrs))%Z.
Proof.
  induction n as [n IH|n IH|]; intros mrs H; cbn [iter_pos].
  - apply IH, IH, shr_1_nonneg, H.
  - apply IH, IH, H.
  - apply shr_1_nonneg, H.
Qed.

Lemma shr_fexp_nonneg (m e : Z) (l : location) :
  (0 <= m)%Z -> (0 <= shr_m (fst (shr_fexp prec emax m e l)))%Z.
Proof.
  intros H. unfold shr_fexp, shr.
  assert (H0 : (0 <= shr_m (shr_record_of_loc m l))%Z)
    by (destruct l as [|[]]; exact H).
  destruct (fexp prec emax (Zdigits2 m + e) - e)%Z; cbn [fst]; auto.
  apply iter_pos_shr_1_nonneg, H0.
Qed.

Lemma round_nearest_even_nonneg (m : Z) (l : location) :
  (0 <= m)%Z -> (0 <= round_nearest_even m l)%Z.
Proof.
  intros H. destruct l as [|[]]; cbn; try lia.
  destruct (Z.even m); lia.
Qed.

Lemma binary_round_aux_nonneg (m e : Z) (l : location) :
  (0 <= m)%Z -> not_negative (binary_round_aux prec emax false m e l).
Proof.
  intros H. unfold binary_round_aux.
  pose proof (shr_fexp_nonneg e l H) as H1.
  destruct (shr_fexp prec emax m e l) as [mrs' e'].
  cbn [fst] in H1.
  pose proof (round_nearest_even_nonneg (loc_of_shr_record mrs') H1) as H2.
  pose proof (shr_fexp_nonneg e' loc_Exact H2) as H3.
  destruct (shr_fexp prec emax _ e' loc_Exact) as [mrs'' e''].
  cbn [fst] in H3.
  destruct (shr_m mrs'') as [|q|q].
  - reflexivity.
  - destruct (e'' <=? emax - prec)%Z; reflexivity.
  - exfalso. lia.
Qed.

Lemma Number_of_bigint_nonneg (b : Z) :
  (0 <= b)%Z -> not_negative (Number_of_bigint b).
Proof.
  intros H. unfold Number_of_bigint, binary_normalize.
  destruct b as [|q|q]; [reflexivity| |exfalso; lia].
  unfold binary_round.
  destruct (shl_align q 0 _) as [mz ez].
  apply binary_round_aux_nonneg. lia.
Qed.

Lemma div_core_nonneg (m1 m2 : positive) (e1 e2 : Z) :
  (0 <= fst (fst (SFdiv_core_binary prec emax (Zpos m1) e1 (Zpos m2) e2)))%Z.
Proof.
  unfold SFdiv_core_binary.
  set (s := (e1 - e2 - _)%Z).
  set (m' := match s with Zpos _ => Z.shiftl (Zpos m1) s | Z0 => Zpos m1 | Zneg _ => 0%Z end).
  assert (Hm : (0 <= m')%Z).
  { subst m'. destruct s; try lia. apply Z.shiftl_nonneg. lia. }
  pose proof (Z_div_mod m' (Zpos m2) eq_refl) as H.
  destruct (Z.div_eucl m' (Zpos m2)) as [q r]. cbn [fst]. nia.
Qed.

Lemma div_one_million_nonneg (x : float64) :
  not_negative x -> not_negative (div x one_million).
Proof.
  unfold div, one_million.
  destruct x as [s|s| |s m e]; cbn [not_negative SFdiv]; intros H; subst; try reflexivity;
    try contradiction.
  pose proof (div_core_nonneg m 8589934592000000 e (-33)) as Hq.
  destruct (SFdiv_core_binary prec emax (Zpos m) e _ _) as [[mz ez] lz].
  cbn [fst] in Hq. cbn [xorb]. apply binary_round_aux_nonneg, Hq.
Qed.

Lemma nonneg_leb (x : float64) : not_negative x -> leb zero x = true.
Proof.
  destruct x as [s|s| |s m e]; cbn; intros H; subst; try reflexivity; contradiction.
Qed.

End FloatFacts.

(* ================================================================== *)
(** * Facts about the prober *)

Module ProberFacts.

Import JS Prober Scheduler Spec FloatFacts.

Open Scope string_scope.
Open Scope list_scope.

(** Unfold a probe down to the answer of the network. *)
Ltac run_probe :=
  cbv beta iota zeta delta
    [probe testDirect testWithProxy read_and_succeed fail_with
     await_body_json await_body_text await_reply await_request
     bind try_catch ret raise hrtime_bigint new_Date get_this
     defined elapse request_of label_of agent_of option_map];
  cbn [clock this fst snd].

Lemma milliseconds_nonneg (a b : Z) :
  (a <= b)%Z -> not_negative (milliseconds a b).
Proof.
  intros H. unfold milliseconds.
  apply div_one_million_nonneg, Number_of_bigint_nonneg. lia.
Qed.

(** What a probe does, whatever the network answers. *)
Lemma probe_settles (w : world) (c : capture) (via : option ProxyConfig) (s : js) :
  let x := network w (clock s) (request_of (this s) via) in
  let lat := milliseconds (Z.of_N (clock s)) (Z.of_N (clock s + measured c x)) in
  exists r s',
    probe w c via s = (Returned r, s')
    /\ clock s' = (clock s + round_trip x)%N
    /\ this s' = this s
    /\ timestamp r = wallclock w (clock s)
    /\ proxy r = label_of via
    /\ latency r = lat
    /\ match failure_of c x with
       | Some (e, _) =>
           r = failed_result (wallclock w (clock s)) (label_of via) lat e
       | None =>
           success r = true /\ error r = None /\ payload_present c r = true
       end.
Proof.
  destruct via as [cfg|]; run_probe;
    (destruct (network w (clock s) _) as [dt r|dt e]; cbn [measured round_trip failure_of];
     [ destruct c; cbn [body_failure];
       [ destruct (body_json r) as [v|e] | destruct (body_text r) as [v|e] ] | ]);
    cbn [clock this];
    eexists; eexists; (split; [reflexivity|]); cbn;
    repeat split; try reflexivity; try lia;
    rewrite <- ?N.add_assoc; reflexivity.
Qed.

Lemma testWithProxy_undefined (w : world) (c : capture) (s : js) :
  testWithProxy w c None s = (Raised (TypeError_undefined "ip"), s).
Proof. reflexivity. Qed.

Lemma testWithProxy_frame (w : world) (c : capture) (cfg : option ProxyConfig) (s : js) :
  this (snd (testWithProxy w c cfg s)) = this s.
Proof.
  destruct cfg as [cfg|]; [|reflexivity].
  destruct (probe_settles w c (Some cfg) s) as (r & s' & E & _ & T & _).
  cbn [probe] in E. rewrite E. exact T.
Qed.

Lemma testDirect_frame (w : world) (c : capture) (s : js) :
  this (snd (testDirect w c s)) = this s.
Proof.
  destruct (probe_settles w c None s) as (r & s' & E & _ & T & _).
  cbn [probe] in E. rewrite E. exact T.
Qed.

Lemma failed_result_exactly_one (c : capture) ts label lat e :
  exactly_one c (failed_result ts label lat e) = true.
Proof. destruct c; reflexivity. Qed.

Lemma probe_exactly_one (w : world) (c : capture) (via : option ProxyConfig) (s : js) :
  returns (fun r => exactly_one c r = true) (probe w c via s).
Proof.
  destruct (probe_settles w c via s) as (r & s' & E & _ & _ & _ & _ & _ & H).
  unfold returns. rewrite E. cbn [fst].
  destruct (failure_of c _) as [[e dt]|].
  - subst r. apply failed_result_exactly_one.
  - destruct H as (Hs & He & Hp). unfold exactly_one. rewrite Hs, He, Hp. reflexivity.
Qed.

(** singleTest is one of the two probes, or a call on [undefined]. *)
Lemma singleTest_cases (w : world) (c : capture) (u : bool) (i : option Z) (s : js) :
  singleTest w c u i s = testDirect w c s
  \/ (exists cfg, singleTest w c u i s = testWithProxy w c cfg s).
Proof.
  unfold singleTest, bind, get_this. cbn.
  destruct (u && _); [right; eexists; reflexivity | left; reflexivity].
Qed.

(** Claim C4.  Every result a probe operation returns, from [testDirect],
    from [testWithProxy] or from [singleTest], carries exactly one of the
    success payload and the error description, and the success flag says
    which: a successful result has its payload and no error, a failed
    result has its error and no payload. *)
Theorem probe_results_exactly_one (w : world) (c : capture) (s : js) :
  returns (fun r => exactly_one c r = true) (testDirect w c s)
  /\ (forall cfg : option ProxyConfig,
        returns (fun r => exactly_one c r = true) (testWithProxy w c cfg s))
  /\ (forall (useProxy : bool) (proxyIndex : option Z),
        returns (fun r => exactly_one c r = true)
                (singleTest w c useProxy proxyIndex s)).
Proof.
  assert (D : returns (fun r => exactly_one c r = true) (testDirect w c s))
    by exact (probe_exactly_one w c None s).
  assert (P : forall cfg, returns (fun r => exactly_one c r = true) (testWithProxy w c cfg s)).
  { intros [cfg|]; [exact (probe_exactly_one w c (Some cfg) s) | exact I]. }
  repeat split; auto.
  intros u i. destruct (singleTest_cases w c u i s) as [E|[cfg E]]; rewrite E; auto.
Qed.

(** Claim C5, amended.  [testDirect], and [testWithProxy] on a proxy
    entry, never throw: they return a result.  When the exchange fails
    after [dt] nanoseconds (the request is rejected, or reading the body
    is), the result is a failed one; its error field holds the message of
    the caught [Error], or the text of a caught value that is no [Error],
    and is the empty string exactly when that message or text is; its
    latency is [Number(dt) / 1_000_000], the time from the start of the
    probe to the instant of the failure in milliseconds, a number not
    less than zero.  Otherwise the result is a successful one without an
    error field. *)
Theorem probe_never_raises (w : world) (c : capture) (via : option ProxyConfig) (s : js) :
  exists r s',
    probe w c via s = (Returned r, s')
    /\ match failure_of c (network w (clock s) (request_of (this s) via)) with
       | Some (e, dt) =>
           success r = false
           /\ error r = Some match e with
                             | ErrorObject message => message
                             | ThrownString text => text
                             | ThrownUndefined => "undefined"
                             | ThrownNull => "null"
                             end
           /\ (described r <-> e <> ErrorObject EmptyString /\ e <> ThrownString EmptyString)
           /\ latency r = div (Number_of_bigint (Z.of_N dt)) one_million
           /\ leb zero (latency r) = true
       | None => success r = true /\ error r = None
       end.
Proof.
  destruct (probe_settles w c via s) as (r & s' & E & _ & _ & _ & _ & L & H).
  exists r, s'. split; [exact E|].
  assert (M : forall dt, milliseconds (Z.of_N (clock s)) (Z.of_N (clock s + dt))
                         = div (Number_of_bigint (Z.of_N dt)) one_million).
  { intros dt. unfold milliseconds. do 2 f_equal. lia. }
  assert (P : forall dt, leb zero (milliseconds (Z.of_N (clock s)) (Z.of_N (clock s + dt)))
                         = true).
  { intros dt. apply nonneg_leb, milliseconds_nonneg. lia. }
  assert (D : forall ts label lat e,
            described (failed_result ts label lat e)
            <-> e <> ErrorObject EmptyString /\ e <> ThrownString EmptyString).
  { intros ts label lat e. unfold described. cbn [failed_result error]. split.
    - intros (text & [= <-] & N). split; intros ->; apply N; reflexivity.
    - intros [N1 N2]. eexists. split; [reflexivity|].
      destruct e as [m|t| |]; cbn; try discriminate.
      + intros ->. apply N1. reflexivity.
      + intros ->. apply N2. reflexivity. }
  revert L H. unfold measured, failure_of.
  destruct (network w (clock s) _) as [dt x|dt e].
  - destruct (body_failure c x) as [e|]; intros L H.
    + subst r. split; [reflexivity|]. split; [destruct e; reflexivity|].
      split; [apply D|]. split; [apply M|apply P].
    + destruct H as (S & X & _). split; [exact S|exact X].
  - intros L H. subst r. split; [reflexivity|]. split; [destruct e; reflexivity|].
    split; [apply D|]. split; [apply M|apply P].
Qed.

(** Claim C5 as stated fails.  The error field is the message of the
    caught [Error] as it is: a request rejected with [new Error('')]
    gives a failed result whose error field is the empty string, which
    describes nothing. *)
Lemma empty_message_is_no_description :
  exists r s',
    testDirect silent_world ParsedJson
      {| clock := 0; this := new_tester "https://example.test" [] |}
    = (Returned r, s')
    /\ success r = false
    /\ error r = Some EmptyString
    /\ ~ described r.
Proof.
  eexists. eexists. split; [reflexivity|]. split; [reflexivity|].
  split; [reflexivity|].
  intros (text & [= <-] & N). apply N. reflexivity.
Qed.

(** A request refused after 1 ms, through a proxy: the message of the
    error and a latency of one millisecond. *)
Example refused_probe :
  exists r s',
    testWithProxy dead_world RawText (Some proxyA)
      {| clock := 5; this := new_tester "https://example.test" [proxyA] |}
    = (Returned r, s')
    /\ success r = false
    /\ error r = Some "connect ECONNREFUSED"
    /\ latency r = S754_finite false 4503599627370496 (-52)
    /\ clock s' = 1000005%N.
Proof. eexists. eexists. split; [vm_compute; reflexivity|]. repeat split. Qed.

(** Claim C7.  Whatever the flag, the optional index, the pool and the
    cursor, [singleTest] leaves the instance as it found it, the rotation
    cursor included; this also holds when the call throws. *)
Theorem singleTest_keeps_cursor (w : world) (c : capture)
    (useProxy : bool) (proxyIndex : option Z) (s : js) :
  this (snd (singleTest w c useProxy proxyIndex s)) = this s
  /\ currentProxyIndex (this (snd (singleTest w c useProxy proxyIndex s)))
     = currentProxyIndex (this s).
Proof.
  assert (H : this (snd (singleTest w c useProxy proxyIndex s)) = this s).
  { destruct (singleTest_cases w c useProxy proxyIndex s) as [E|[cfg E]]; rewrite E.
    - apply testDirect_frame.
    - apply testWithProxy_frame. }
  split; [exact H | rewrite H; reflexivity].
Qed.

(** Claim C8.  Every probe, successful or failed, returns a result whose
    latency is [Number(end - start) / 1_000_000], where [start] and [end]
    are the readings of the monotonic clock at the start of the probe and
    at the arrival of the response or of the failure; [start <= end], and
    the latency is a number not less than zero (so it is not NaN). *)
Theorem latency_recorded_nonnegative (w : world) (c : capture)
    (via : option ProxyConfig) (s : js) :
  let start := Z.of_N (clock s) in
  let end_ := Z.of_N (clock s + measured c (network w (clock s) (request_of (this s) via))) in
  exists r s',
    probe w c via s = (Returned r, s')
    /\ (start <= end_)%Z
    /\ latency r = div (Number_of_bigint (end_ - start)) one_million
    /\ leb zero (latency r) = true.
Proof.
  intros start end_.
  destruct (probe_settles w c via s) as (r & s' & E & _ & _ & _ & _ & L & _).
  exists r, s'. assert (start <= end_)%Z by (subst start end_; lia).
  repeat split; auto.
  rewrite L. apply nonneg_leb, milliseconds_nonneg. assumption.
Qed.

(** Claim C10, on the failing input.  With a pool of two proxies,
    [singleTest(true, -1)] computes the index [-1 % 2 = -1], reads
    [undefined] from the pool and throws a [TypeError] where
    [testWithProxy] reads [proxyConfig.ip]. *)
Theorem singleTest_negative_index_raises :
  fst (singleTest fast_world ParsedJson true (Some (-1)%Z)
         {| clock := 0; this := new_tester "https://example.test" [proxyA; proxyB] |})
  = Raised (TypeError_undefined "ip").
Proof. reflexivity. Qed.

(** An unreachable target: the probe returns a failed result with the
    text of the error and the millisecond that went by. *)
Example unreachable_target :
  fst (testDirect dead_world ParsedJson
         {| clock := 0; this := new_tester "https://example.test" [] |})
  = Returned {| timestamp := 0; proxy := "direct";
                latency := S754_finite false 4503599627370496 (-52);
                success := false; error := Some "connect ECONNREFUSED";
                responseData := None; statusCode := None;
                responseBody := None |}.
Proof. reflexivity. Qed.

Lemma index_in_bounds (A : Type) (l : list A) (i : Z) :
  (0 <= i < JS.length l)%Z -> exists a, JS.index l i = Some a.
Proof.
  intros H. unfold JS.index, JS.length in *.
  destruct (Z.ltb_spec i 0); [lia|].
  destruct (nth_error l (Z.to_nat i)) eqn:E; [eauto|].
  apply nth_error_None in E. lia.
Qed.

Lemma index_out_of_bounds (A : Type) (l : list A) (i : Z) :
  (i < 0 \/ JS.length l <= i)%Z -> JS.index l i = None.
Proof.
  intros H. unfold JS.index, JS.length in *.
  destruct (Z.ltb_spec i 0); [reflexivity|].
  apply nth_error_None. lia.
Qed.

(** With a non-empty pool, [singleTest(true, i)] returns exactly when the
    remainder is not negative. *)
Lemma singleTest_index_returns (w : world) (c : capture) (i : Z) (s : js) :
  proxies (this s) <> [] ->
  (exists r, fst (singleTest w c true (Some i) s) = Returned r)
  <-> (0 <= Z.rem i (JS.length (proxies (this s))))%Z.
Proof.
  intros Hne.
  assert (HL : (0 < JS.length (proxies (this s)))%Z).
  { unfold JS.length. destruct (proxies (this s)); [congruence|cbn; lia]. }
  unfold singleTest, bind, get_this. cbn [fst snd andb].
  destruct (Z.ltb_spec 0 (JS.length (proxies (this s)))) as [_|]; [|lia].
  unfold rem. split.
  - intros [r E].
    destruct (Z.le_gt_cases 0 (Z.rem i (JS.length (proxies (this s))))) as [|Hneg]; [assumption|].
    rewrite index_out_of_bounds in E by lia.
    rewrite testWithProxy_undefined in E. discriminate.
  - intros H.
    assert (Hlt : (Z.rem i (JS.length (proxies (this s))) < JS.length (proxies (this s)))%Z).
    { revert HL. generalize (JS.length (proxies (this s))). intros L HL.
      pose proof (Z.rem_bound_abs i L). lia. }
    destruct (@index_in_bounds _ (proxies (this s)) (Z.rem i (JS.length (proxies (this s))))) as [cfg E]; [split; assumption|].
    rewrite E.
    destruct (probe_settles w c (Some cfg) s) as (r & s' & E' & _).
    cbn [probe] in E'. rewrite E'. exists r. reflexivity.
Qed.

End ProberFacts.

(* ================================================================== *)
(** * Facts about the scheduler *)

Module SchedulerFacts.

Import JS Prober Scheduler Spec ProberFacts.

Open Scope string_scope.
Open Scope list_scope.

(** ** The console *)

Lemma results_app (a b : list line) : results (a ++ b) = (results a + results b)%nat.
Proof. unfold results. rewrite filter_app, length_app. reflexivity. Qed.

(** Every path through [logResult], by the tests it makes. *)
Ltac log_cases c r :=
  unfold logResult, data_detail, and_then, prints;
  destruct c; destruct (success r); cbn [negb fst snd app];
  repeat match goal with
         | |- context [match responseData r with _ => _ end] =>
             destruct (responseData r)
         | |- context [if truthy ?v then _ else _] => destruct (truthy v)
         | |- context [match get ?v ?k with _ => _ end] =>
             let d := fresh "d" in destruct (get v k) as [d|]
         | |- context [if (?a && ?b && ?c)%bool then _ else _] =>
             destruct (a && b && c)%bool
         | _ => progress cbn [fst snd app]
         end.

Lemma results_logResult (c : capture) (r : LatencyResult) :
  results (fst (logResult c r)) = 1%nat.
Proof. log_cases c r; reflexivity. Qed.

Lemma labels_app (a b : list line) : labels (a ++ b) = labels a ++ labels b.
Proof.
  induction a as [|l a IH]; [reflexivity|].
  destruct l; cbn [labels app]; rewrite ?IH; reflexivity.
Qed.

Lemma labels_logResult (c : capture) (r : LatencyResult) :
  labels (fst (logResult c r)) = [proxy r].
Proof. log_cases c r; reflexivity. Qed.

Lemma logResult_not_scheduling_error (c : capture) (r : LatencyResult) :
  Forall (fun l => is_scheduling_error l = false) (fst (logResult c r)).
Proof. log_cases c r; repeat constructor. Qed.

(** [logResult] throws in one place only: the template literal of the
    revision that parses JSON, on a successful result. *)
Lemma logResult_raises (c : capture) (r : LatencyResult) (e : thrown) :
  snd (logResult c r) = Raised e ->
  c = ParsedJson /\ success r = true /\ e = cannot_convert
  /\ fst (logResult c r)
     = [ResultLine (timestamp r) (success r) (proxy r) (latency r)].
Proof.
  log_cases c r; intros H; try discriminate H;
    inversion H; repeat split; reflexivity.
Qed.

Lemma results_callback_lines (c : capture) (r : LatencyResult) :
  results (callback_lines c (Returned r)) = 1%nat.
Proof.
  unfold callback_lines. rewrite results_app, results_logResult.
  cbn [callback_error]. destruct (snd (logResult c r)); reflexivity.
Qed.

Lemma labels_callback_lines (c : capture) (r : LatencyResult) :
  labels (callback_lines c (Returned r)) = [proxy r].
Proof.
  unfold callback_lines. rewrite labels_app, labels_logResult.
  cbn [callback_error]. destruct (snd (logResult c r)); reflexivity.
Qed.

(** ** The handlers *)

Section Handlers.

Variable w : world.
Variable c : capture.
Variable p : schedule.

(** *** [finish] *)

Lemma finish_fields (withErrors : bool) (s : sched) :
  let reached := (testsCompleted s + 1 >=? count p)%Z in
  self (finish p withErrors s) = self s
  /\ testsCompleted (finish p withErrors s) = (testsCompleted s + 1)%Z
  /\ interval (finish p withErrors s) = (if reached then None else interval s)
  /\ in_flight (finish p withErrors s) = in_flight s
  /\ console (finish p withErrors s)
     = console s ++ (if reached
                     then [CompletedLine (testsCompleted s + 1) withErrors]
                     else [])
  /\ now (finish p withErrors s) = now s
  /\ dispatched (finish p withErrors s) = dispatched s.
Proof.
  unfold finish. cbn [increment testsCompleted].
  destruct (testsCompleted s + 1 >=? count p)%Z; cbn;
    rewrite ?app_nil_r; repeat split; reflexivity.
Qed.

(** *** [tick] *)

Lemma tick_fields (t : N) (s : sched) :
  exists f,
    tick w c p t s
    = {| self := self s; testsCompleted := testsCompleted s;
         interval := Some (t + period p)%N;
         in_flight := in_flight s ++ [f];
         console := console s; now := t;
         dispatched := dispatched s ++ [routed f] |}
    /\ routed f = (if proxy_mode p (self s)
                   then Via (JS.index (proxies (self s)) (currentProxyIndex (self s)))
                   else Direct)
    /\ match routed f with
       | Direct =>
           settles_at f = (t + round_trip (network w t (request_of (self s) None)))%N
           /\ exists r, settled f = Returned r /\ proxy r = "direct"
       | Via (Some cfg) =>
           settles_at f = (t + round_trip (network w t (request_of (self s) (Some cfg))))%N
           /\ exists r, settled f = Returned r /\ proxy r = label_of (Some cfg)
       | Via None =>
           settles_at f = t /\ settled f = Raised (TypeError_undefined "ip")
       end.
Proof.
  unfold tick. cbn [self now].
  destruct (proxy_mode p (self s)).
  - destruct (JS.index (proxies (self s)) (currentProxyIndex (self s))) as [cfg|].
    + unfold dispatch. cbn [self now testsCompleted interval in_flight console dispatched].
      destruct (probe_settles w c (Some cfg) {| clock := t; this := self s |})
        as (r & s' & E & Hc & _ & _ & Hl & _).
      cbn [probe clock this] in *. rewrite E.
      exists {| settles_at := clock s'; settled := Returned r; routed := Via (Some cfg) |}.
      split; [reflexivity|]. cbn [routed settles_at settled].
      split; [reflexivity|]. split; [exact Hc|]. exists r. split; [reflexivity|exact Hl].
    + unfold dispatch. rewrite testWithProxy_undefined.
      exists {| settles_at := t; settled := Raised (TypeError_undefined "ip");
                routed := Via None |}.
      split; [reflexivity|]. cbn. auto.
  - unfold dispatch. cbn [self now testsCompleted interval in_flight console dispatched].
    destruct (probe_settles w c None {| clock := t; this := self s |})
      as (r & s' & E & Hc & _ & _ & Hl & _).
    cbn [probe clock this] in *. rewrite E.
    exists {| settles_at := clock s'; settled := Returned r; routed := Direct |}.
    split; [reflexivity|]. cbn [routed settles_at settled].
    split; [reflexivity|]. split; [exact Hc|]. exists r. split; [reflexivity|exact Hl].
Qed.

(** A probe settles no earlier than it starts and, when no probe
    overruns, before the timer is due again. *)
Lemma tick_flight_window (t : N) (s : sched) :
  exists f,
    in_flight (tick w c p t s) = in_flight s ++ [f]
    /\ interval (tick w c p t s) = Some (t + period p)%N
    /\ (t <= settles_at f)%N
    /\ (no_overrun w p -> settles_at f < t + period p)%N.
Proof.
  destruct (tick_fields t s) as (f & E & _ & H).
  exists f. rewrite E. cbn [in_flight interval].
  split; [reflexivity|]. split; [reflexivity|].
  destruct (routed f) as [|[cfg|]].
  - destruct H as [-> _]. split; [lia|]. intros O.
    specialize (O t (request_of (self s) None)). lia.
  - destruct H as [-> _]. split; [lia|]. intros O.
    specialize (O t (request_of (self s) (Some cfg))). lia.
  - destruct H as [-> _]. split; [lia|]. intros O.
    specialize (O t (request_of (self s) None)). lia.
Qed.

(** *** [resume] *)

(** The paths through the callback after its [await]. *)
Ltac resume_cases f :=
  unfold resume, caught; cbv zeta;
  destruct (settled f) as [?r|?e];
  [destruct (routed f);
   match goal with
   | |- context [snd (logResult ?c ?r)] => destruct (snd (logResult c r))
   end|].

Lemma resume_in_flight (f : flight) (rest : list flight) (s : sched) :
  in_flight (resume c p f rest s) = rest.
Proof.
  resume_cases f;
    match goal with |- in_flight (finish _ _ ?x) = _ =>
      destruct (finish_fields false x) as (_ & _ & _ & H & _);
      destruct (finish_fields true x) as (_ & _ & _ & H' & _)
    end; first [rewrite H | rewrite H']; reflexivity.
Qed.

Lemma resume_interval (f : flight) (rest : list flight) (s : sched) :
  interval (resume c p f rest s)
  = if (testsCompleted s + 1 >=? count p)%Z then None else interval s.
Proof.
  resume_cases f;
    match goal with |- interval (finish _ ?b ?x) = _ =>
      destruct (finish_fields b x) as (_ & _ & H & _)
    end; rewrite H; reflexivity.
Qed.

Lemma resume_testsCompleted (f : flight) (rest : list flight) (s : sched) :
  testsCompleted (resume c p f rest s) = (testsCompleted s + 1)%Z.
Proof.
  resume_cases f;
    match goal with |- testsCompleted (finish _ ?b ?x) = _ =>
      destruct (finish_fields b x) as (_ & H & _)
    end; rewrite H; reflexivity.
Qed.

Lemma resume_dispatched (f : flight) (rest : list flight) (s : sched) :
  dispatched (resume c p f rest s) = dispatched s.
Proof.
  resume_cases f;
    match goal with |- dispatched (finish _ ?b ?x) = _ =>
      destruct (finish_fields b x) as (_ & _ & _ & _ & _ & _ & H)
    end; rewrite H; reflexivity.
Qed.

(** The instance after a settled promise: the cursor moves exactly when
    the probe went through a proxy and returned. *)
Lemma resume_self (f : flight) (rest : list flight) (s : sched) :
  self (resume c p f rest s)
  = match settled f, routed f with
    | Returned _, Via _ =>
        {| targetUrl := targetUrl (self s);
           proxies := proxies (self s);
           currentProxyIndex :=
             rem (currentProxyIndex (self s) + 1) (JS.length (proxies (self s))) |}
    | _, _ => self s
    end.
Proof.
  resume_cases f;
    match goal with |- self (finish _ ?b ?x) = _ =>
      destruct (finish_fields b x) as (H & _)
    end; rewrite H; reflexivity.
Qed.

Lemma resume_console (f : flight) (rest : list flight) (s : sched) :
  console (resume c p f rest s)
  = console s
    ++ callback_lines c (settled f)
    ++ (if (testsCompleted s + 1 >=? count p)%Z
        then [CompletedLine (testsCompleted s + 1)
                (match callback_error c (settled f) with
                 | Some _ => true
                 | None => false
                 end)]
        else []).
Proof.
  unfold callback_lines, callback_error. resume_cases f;
    match goal with |- console (finish _ ?b ?x) = _ =>
      destruct (finish_fields b x) as (_ & _ & _ & _ & H & _)
    end; rewrite H; cbn; rewrite <- ?app_assoc, ?app_nil_r; reflexivity.
Qed.

(** ** The event loop *)

Lemma earliest_Forall (P : flight -> Prop) (fs : list flight) :
  forall f rest, earliest fs = Some (f, rest) -> Forall P fs -> P f /\ Forall P rest.
Proof.
  induction fs as [|g fs IH]; intros f rest E H; [discriminate|].
  cbn [earliest] in E. inversion H as [|? ? Hg Hfs]; subst.
  destruct (earliest fs) as [[h others]|].
  - destruct (IH h others eq_refl Hfs) as [Hh Ho].
    destruct (settles_at g <=? settles_at h)%N; inversion E; subst; auto.
  - inversion E; subst. auto.
Qed.

Lemma next_event_flight (P : flight -> Prop) (s : sched) (f : flight) (rest : list flight) :
  next_event s = Some (Settle f rest) -> Forall P (in_flight s) -> P f /\ Forall P rest.
Proof.
  unfold next_event. intros E H.
  destruct (earliest (in_flight s)) as [[g others]|] eqn:X.
  - apply (@earliest_Forall P (in_flight s)); [|exact H].
    destruct (interval s) as [due|].
    + destruct (due <=? settles_at g)%N; inversion E; subst. exact X.
    + inversion E; subst. exact X.
  - destruct (interval s); discriminate.
Qed.

Lemma turns_invariant (P : sched -> Prop) :
  (forall s s', P s -> step w c p s = Some s' -> P s') ->
  forall n s, P s -> P (turns w c p n s).
Proof.
  intros Hstep. induction n as [|n IH]; intros s H; cbn [turns]; [exact H|].
  destruct (step w c p s) as [s'|] eqn:E; [|exact H].
  apply IH. exact (Hstep s s' H E).
Qed.

Lemma turns_add (a b : nat) (s : sched) :
  turns w c p (a + b) s = turns w c p b (turns w c p a s).
Proof.
  revert s. induction a as [|a IH]; intros s; cbn [turns Nat.add]; [reflexivity|].
  destruct (step w c p s) as [s'|] eqn:E; [apply IH|].
  clear IH. induction b as [|b IHb]; cbn [turns]; [reflexivity|].
  rewrite E. reflexivity.
Qed.

Lemma run_turns (n : nat) :
  forall s, step w c p (turns w c p n s) = None ->
  forall fuel, (n <= fuel)%nat -> run w c p fuel s = Some (turns w c p n s).
Proof.
  induction n as [|n IH]; intros s H fuel Hf.
  - cbn [turns] in *. destruct fuel; cbn [run]; rewrite H; reflexivity.
  - cbn [turns] in *. destruct (step w c p s) as [s'|] eqn:E.
    + destruct fuel as [|fuel]; [lia|]. cbn [run]. rewrite E.
      apply IH; [exact H|lia].
    + destruct fuel; cbn [run]; rewrite E; reflexivity.
Qed.

Lemma step_one_in_flight (s s' : sched) :
  no_overrun w p -> one_in_flight s -> step w c p s = Some s' -> one_in_flight s'.
Proof.
  intros O Inv. unfold step, next_event.
  unfold one_in_flight in Inv.
  destruct (in_flight s) as [|f [|g rest]] eqn:F; [| |contradiction]; cbn [earliest].
  - destruct (interval s) as [due|] eqn:D; [|discriminate].
    cbn [event_time]. destruct (interrupted_by w due); intros [= <-].
    + exact I.
    + cbn [handle]. destruct (tick_flight_window due s) as (f & E & E' & _ & H).
      unfold one_in_flight. rewrite E, E', F. cbn. exact (H O).
  - assert (E : forall h, h = Settle f [] ->
                (if interrupted_by w (event_time h)
                 then Some (interrupt (match sigint w with Some i => i | None => now s end) s)
                 else Some (handle w c p h s)) = Some s' -> one_in_flight s').
    { intros h ->. cbn [event_time handle].
      destruct (interrupted_by w (settles_at f)); intros [= <-]; [exact I|].
      unfold one_in_flight. rewrite resume_in_flight. exact I. }
    destruct (interval s) as [due|]; [|exact (E _ eq_refl)].
    destruct (N.leb_spec due (settles_at f)); [lia|exact (E _ eq_refl)].
Qed.

Lemma one_in_flight_length (s : sched) :
  one_in_flight s -> (List.length (in_flight s) <= 1)%nat.
Proof.
  unfold one_in_flight. destruct (in_flight s) as [|f [|g rest]]; cbn; intros H;
    [lia | lia | contradiction].
Qed.

Lemma one_in_flight_expire (s : sched) (due : N) :
  one_in_flight s -> next_event s = Some (Expire due) -> in_flight s = [].
Proof.
  unfold one_in_flight, next_event.
  destruct (in_flight s) as [|f [|g rest]]; [reflexivity| |contradiction].
  cbn [earliest]. destruct (interval s) as [d|]; [|discriminate].
  intros H. destruct (N.leb_spec d (settles_at f)); [lia|discriminate].
Qed.

Lemma run_final (fuel : nat) :
  forall s final, run w c p fuel s = Some final ->
  step w c p final = None /\ exists n, final = turns w c p n s.
Proof.
  induction fuel as [|fuel IH]; intros s final; cbn [run];
    destruct (step w c p s) as [s'|] eqn:E.
  - discriminate.
  - intros [= <-]. split; [exact E|]. exists 0%nat. reflexivity.
  - intros R. destruct (IH s' final R) as [H [n ->]].
    split; [exact H|]. exists (S n). cbn [turns]. rewrite E. reflexivity.
  - intros [= <-]. split; [exact E|]. exists 0%nat. reflexivity.
Qed.

Lemma step_None_cleared (s : sched) :
  step w c p s = None -> interval s = None /\ in_flight s = [].
Proof.
  unfold step, next_event.
  destruct (in_flight s) as [|f fs] eqn:F.
  - cbn [earliest]. destruct (interval s); [|auto].
    destruct (interrupted_by w _); discriminate.
  - destruct (earliest (f :: fs)) as [[g rest]|] eqn:X.
    + destruct (interval s) as [due|];
        [destruct (due <=? settles_at g)%N|];
        destruct (interrupted_by w _); discriminate.
    + cbn [earliest] in X. destruct (earliest fs) as [[h others]|];
        [destruct (settles_at f <=? settles_at h)%N|]; discriminate.
Qed.

(** From a healthy state no promise the callback awaits rejects. *)
Lemma step_healthy (s s' : sched) :
  healthy s -> step w c p s = Some s' -> healthy s'.
Proof.
  intros H. unfold step. destruct (next_event s) as [e|] eqn:X; [|discriminate].
  destruct (interrupted_by w (event_time e)); intros [= <-].
  - constructor; cbn.
    + exact (hl_cursor H).
    + constructor.
  - destruct e as [t|f rest]; cbn [handle].
    + destruct (tick_fields t s) as (f & T & R & S).
      rewrite T. constructor; cbn.
      * exact (hl_cursor H).
      * apply Forall_app. split; [exact (hl_flights H)|].
        constructor; [|constructor]. unfold resolves.
        destruct (routed f) as [|[cfg|]].
        -- destruct S as (_ & r & Sr & _). eauto.
        -- destruct S as (_ & r & Sr & _). eauto.
        -- exfalso. destruct (proxy_mode p (self s)) eqn:PM; [|discriminate].
           unfold proxy_mode in PM. apply andb_prop in PM. destruct PM as [_ L].
           apply Z.ltb_lt in L.
           destruct (hl_cursor H) as [E|B]; [rewrite E in L; cbn in L; lia|].
           destruct (index_in_bounds (proxies (self s)) B) as [cfg I].
           rewrite I in R. discriminate.
    + destruct (@next_event_flight resolves s f rest X (hl_flights H))
        as [[r Sr] Hrest].
      constructor.
      * rewrite resume_self, Sr.
        destruct (routed f); [exact (hl_cursor H)|].
        destruct (hl_cursor H) as [E|B]; [left; exact E|right].
        cbn [proxies currentProxyIndex]. unfold rem.
        apply Z.rem_bound_pos; lia.
      * rewrite resume_in_flight. exact Hrest.
Qed.

(** In the revision that prints the raw body [logResult] does not throw:
    from a healthy state the callback never reaches its [catch] block. *)
Lemma step_never_caught (s s' : sched) :
  c = RawText -> healthy s -> never_caught s -> step w c p s = Some s' -> never_caught s'.
Proof.
  intros C H Q. unfold step. destruct (next_event s) as [e|] eqn:X; [|discriminate].
  destruct (interrupted_by w (event_time e)); intros [= <-].
  - unfold never_caught. cbn. apply Forall_app. split; [exact Q|repeat constructor].
  - destruct e as [t|f rest]; cbn [handle].
    + destruct (tick_fields t s) as (f & T & _). rewrite T. exact Q.
    + destruct (@next_event_flight resolves s f rest X (hl_flights H))
        as [[r Sr] _].
      unfold never_caught. rewrite resume_console, Sr.
      apply Forall_app. split; [exact Q|].
      assert (E : callback_error c (Returned r) = None).
      { cbn [callback_error]. destruct (snd (logResult c r)) as [u|e] eqn:L;
          [reflexivity|].
        destruct (logResult_raises c r L) as (C' & _). congruence. }
      unfold callback_lines. rewrite E, app_nil_r.
      apply Forall_app. split; [apply logResult_not_scheduling_error|].
      destruct (_ >=? _)%Z; repeat constructor.
Qed.

End Handlers.

(** ** Reentrancy *)

(** Claim C1, amended.  When no probe overruns the interval (every round
    trip is shorter than the period of the timer), at most one probe is
    in flight at any point of the run, interrupted or not, and whenever
    the timer fires no probe is in flight: each tick's probe has settled
    before the next tick starts its own. *)
Theorem no_overrun_non_reentrant (w : world) (c : capture) (p : schedule)
    (t0 : N) (t : tester) :
  no_overrun w p -> non_reentrant w c p t0 t.
Proof.
  intros O n.
  assert (H : one_in_flight (turns w c p n (runContinuousTesting p t0 t))).
  { apply turns_invariant.
    - intros s s'. apply step_one_in_flight. exact O.
    - exact I. }
  split.
  - apply one_in_flight_length. exact H.
  - intros due. apply one_in_flight_expire. exact H.
Qed.

(** Probes of 0.3 s under a period of 1 s. *)
Lemma no_overrun_non_reentrant_witness :
  no_overrun fast_world (every_second true 4)
  /\ non_reentrant fast_world RawText (every_second true 4) 0
       (new_tester "https://example.test" [proxyA; proxyB]).
Proof.
  split.
  - intros t req. reflexivity.
  - apply no_overrun_non_reentrant. intros t req. reflexivity.
Defined.

(** Claim C1 as stated fails.  The timer is re-armed at a fixed rate and
    the callback has no in-flight guard: with a period of 1 s and round
    trips of 2.5 s, two probes are in flight after the second tick. *)
Lemma overrun_is_reentrant :
  ~ non_reentrant slow_world RawText (every_second false 1) 0
      (new_tester "https://example.test" []).
Proof.
  intros H. destruct (H 2%nat) as [L _]. vm_compute in L. lia.
Qed.

(** ** Errors of the callback *)

(** The timer is only cleared once the count is reached. *)
Lemma step_not_halted (w : world) (c : capture) (p : schedule) (s s' : sched) :
  sigint w = None ->
  (interval s = None -> (count p <= testsCompleted s)%Z) ->
  step w c p s = Some s' ->
  interval s' = None -> (count p <= testsCompleted s')%Z.
Proof.
  intros Q H. unfold step. destruct (next_event s) as [e|]; [|discriminate].
  unfold interrupted_by. rewrite Q. intros [= <-].
  destruct e as [t|f rest]; cbn [handle].
  - destruct (tick_fields w c p t s) as (f & E & _). rewrite E. discriminate.
  - rewrite resume_interval, resume_testsCompleted.
    destruct (Z.geb_spec (testsCompleted s + 1) (count p)); [lia|].
    intros X. specialize (H X). lia.
Qed.

(** Claim C9.  When the callback of a tick lands in its [catch] block,
    because the promise it awaited rejected or because [logResult] threw,
    the error is caught there: the counter goes up by exactly one, the
    error is printed on a line of its own, after nothing (a rejected
    promise) or after the line of the result that [logResult] had printed
    and that reports a success (so no probe's error field is printed next
    to it), and the timer is cleared only if the counter has now reached
    the count.  The cursor has moved if the probe went through a proxy and
    returned.  Throughout an uninterrupted run the timer is never found
    cleared before the counter has reached the count, and a run that ends
    has reached it. *)
Theorem scheduling_error_still_counts (w : world) (c : capture) (p : schedule)
    (s : sched) (f : flight) (rest : list flight) (e : thrown) :
  callback_error c (settled f) = Some e ->
  let s' := resume c p f rest s in
  let reached := (testsCompleted s + 1 >=? count p)%Z in
  let printed := match settled f with
                 | Raised _ => []
                 | Returned r => [ResultLine (timestamp r) true (proxy r) (latency r)]
                 end in
  (settled f = Raised e
   \/ exists r, settled f = Returned r /\ c = ParsedJson /\ success r = true
                /\ e = cannot_convert)
  /\ testsCompleted s' = (testsCompleted s + 1)%Z
  /\ console s' = console s ++ printed ++ [SchedulingErrorLine e]
                  ++ (if reached then [CompletedLine (testsCompleted s + 1) true] else [])
  /\ emitted s' = (emitted s + List.length printed)%nat
  /\ self s' = match settled f, routed f with
               | Returned _, Via _ =>
                   {| targetUrl := targetUrl (self s);
                      proxies := proxies (self s);
                      currentProxyIndex :=
                        rem (currentProxyIndex (self s) + 1)
                            (JS.length (proxies (self s))) |}
               | _, _ => self s
               end
  /\ interval s' = (if reached then None else interval s)
  /\ in_flight s' = rest
  /\ (forall (t0 : N) (t : tester) (n : nat),
        sigint w = None ->
        interval (turns w c p n (runContinuousTesting p t0 t)) = None ->
        (count p <= testsCompleted (turns w c p n (runContinuousTesting p t0 t)))%Z)
  /\ (forall (t0 : N) (t : tester) (fuel : nat) (final : sched),
        sigint w = None ->
        run w c p fuel (runContinuousTesting p t0 t) = Some final ->
        (count p <= testsCompleted final)%Z).
Proof.
  intros E s' reached printed. subst s'.
  assert (P : callback_lines c (settled f) = printed ++ [SchedulingErrorLine e]
              /\ (settled f = Raised e
                  \/ exists r, settled f = Returned r /\ c = ParsedJson
                               /\ success r = true /\ e = cannot_convert)).
  { unfold callback_lines. rewrite E. subst printed.
    destruct (settled f) as [r|e'].
    - cbn [callback_error] in E.
      destruct (snd (logResult c r)) as [u|e'] eqn:L; [discriminate|].
      inversion E; subst e'.
      destruct (logResult_raises c r L) as (C & S & X & ->).
      rewrite S. split; [reflexivity|]. right. exists r. auto.
    - inversion E; subst e'. split; [reflexivity|]. left. reflexivity. }
  destruct P as [P Cases].
  split; [exact Cases|].
  split; [apply resume_testsCompleted|].
  assert (K : console (resume c p f rest s)
              = console s ++ printed ++ [SchedulingErrorLine e]
                ++ (if reached then [CompletedLine (testsCompleted s + 1) true] else [])).
  { rewrite resume_console, P, E, <- app_assoc. reflexivity. }
  split; [exact K|].
  split.
  { assert (X : forall a, emitted a = results (console a)) by reflexivity.
    rewrite !X, K, !results_app. subst reached printed.
    destruct (testsCompleted s + 1 >=? count p)%Z; destruct (settled f);
      cbn; lia. }
  split; [apply resume_self|].
  split; [apply resume_interval|].
  split; [apply resume_in_flight|].
  assert (G : forall (t0 : N) (t : tester) (n : nat),
            sigint w = None ->
            interval (turns w c p n (runContinuousTesting p t0 t)) = None ->
            (count p <= testsCompleted (turns w c p n (runContinuousTesting p t0 t)))%Z).
  { intros t0 t n Q.
    apply (@turns_invariant w c p
             (fun s => interval s = None -> (count p <= testsCompleted s)%Z)).
    - intros a b Ha Hs. exact (@step_not_halted w c p a b Q Ha Hs).
    - cbn. discriminate. }
  split; [exact G|].
  intros t0 t fuel final Q R.
  destruct (@run_final w c p fuel _ _ R) as [F [n ->]].
  apply G; [exact Q|].
  apply (@step_None_cleared w c p _ F).
Qed.

(** The callback of a proxied probe whose body parsed to [unprintable]:
    [logResult] throws after the result line, with the cursor moved. *)
Lemma scheduling_error_still_counts_witness :
  let p := every_second true 3 in
  let s := tick unprintable_world ParsedJson p 0
             (runContinuousTesting p 0
                (new_tester "https://example.test" [proxyA; proxyB])) in
  let s' := resume ParsedJson p unprintable_flight [] s in
  in_flight s = [unprintable_flight]
  /\ callback_error ParsedJson (settled unprintable_flight) = Some cannot_convert
  /\ testsCompleted s' = (testsCompleted s + 1)%Z
  /\ console s'
     = console s
       ++ [ResultLine 0 true "10.0.0.1:8080" (milliseconds 0 300000000)]
       ++ [SchedulingErrorLine cannot_convert] ++ []
  /\ currentProxyIndex (self s') = 1%Z.
Proof.
  intros p s s'.
  split; [vm_compute; reflexivity|]. split; [reflexivity|].
  destruct (@scheduling_error_still_counts unprintable_world ParsedJson p s
              unprintable_flight [] cannot_convert eq_refl)
    as (_ & T & K & _ & C & _).
  split; [exact T|]. split; [exact K|].
  subst s'. rewrite C. reflexivity.
Defined.

(** On an instance whose cursor points into its pool, as after
    construction, no promise a tick awaits rejects, overrun or not,
    interrupted or not. *)
Lemma well_formed_run_healthy (w : world) (c : capture) (p : schedule)
    (t0 : N) (t : tester) (n : nat) :
  well_formed t -> healthy (turns w c p n (runContinuousTesting p t0 t)).
Proof.
  intros W. apply turns_invariant.
  - intros s s'. apply step_healthy.
  - constructor; cbn; [exact W|constructor].
Qed.

(** In the revision that prints the raw body, on such an instance, no
    tick ever lands in the [catch] block. *)
Lemma raw_text_run_never_caught (w : world) (p : schedule) (t0 : N) (t : tester) (n : nat) :
  well_formed t -> never_caught (turns w RawText p n (runContinuousTesting p t0 t)).
Proof.
  intros W.
  apply (@turns_invariant w RawText p (fun s => healthy s /\ never_caught s)).
  - intros s s' [H Q] S. split.
    + exact (@step_healthy w RawText p s s' H S).
    + exact (@step_never_caught w RawText p s s' eq_refl H Q S).
  - split.
    + constructor; cbn; [exact W|constructor].
    + unfold never_caught. cbn. repeat constructor.
Qed.

(** In the revision that parses JSON a body whose title cannot be turned
    into text sends every tick through the [catch] block: each prints
    its result and the error, each counts, and the run ends at the count
    with errors. *)
Example unprintable_run :
  exists final,
    run unprintable_world ParsedJson (every_second false 2) 10
      (runContinuousTesting (every_second false 2) 0
         (new_tester "https://example.test" [])) = Some final
    /\ testsCompleted final = 2%Z
    /\ emitted final = 2%nat
    /\ List.length (filter is_scheduling_error (console final)) = 2%nat
    /\ last (console final) Separator = CompletedLine 2 true
    /\ interval final = None.
Proof. eexists. split; [vm_compute; reflexivity|]. repeat split. Qed.

(** An interrupt after two of ten probes: two results were printed, then
    the notice of the forced shutdown, and nothing is left to run. *)
Example interrupted_run :
  exists final,
    run interrupted_world RawText (every_second false 10) 10
      (runContinuousTesting (every_second false 10) 0
         (new_tester "https://example.test" [])) = Some final
    /\ emitted final = 2%nat
    /\ last (console final) Separator = ForcedLine 2
    /\ interval final = None
    /\ in_flight final = [].
Proof. eexists. split; [vm_compute; reflexivity|]. repeat split. Qed.

(** A run whose cursor points outside the pool: both ticks call
    [testWithProxy] on [undefined], both rejections are caught, and the
    run still ends at the count, with no result emitted. *)
Example stale_cursor_run :
  exists final,
    run fast_world RawText (every_second true 2) 10
      (runContinuousTesting (every_second true 2) 0
         {| targetUrl := "https://example.test";
            proxies := [proxyA];
            currentProxyIndex := 3 |}) = Some final
    /\ testsCompleted final = 2%Z
    /\ emitted final = 0%nat
    /\ skipn 5 (console final)
       = [SchedulingErrorLine (TypeError_undefined "ip");
          SchedulingErrorLine (TypeError_undefined "ip");
          CompletedLine 2 true].
Proof. eexists. split; [vm_compute; reflexivity|]. repeat split. Qed.

End SchedulerFacts.

(* ================================================================== *)
(** * Facts about runs in which no probe overruns the interval *)

Module RotationFacts.

Import JS Prober Scheduler Spec ProberFacts SchedulerFacts.

Open Scope string_scope.
Open Scope list_scope.

Section CycleProofs.

Variable w : world.
Variable c : capture.
Variable p : schedule.
Variable t : tester.

Hypothesis quiet : sigint w = None.
Hypothesis timely : no_overrun w p.
Hypothesis wf : well_formed t.

Lemma not_interrupted (x : N) : interrupted_by w x = false.
Proof. unfold interrupted_by. rewrite quiet. reflexivity. Qed.

Lemma proxy_mode_pool :
  proxy_mode p t = true ->
  (0 < JS.length (proxies t))%Z
  /\ (0 <= currentProxyIndex t < JS.length (proxies t))%Z.
Proof.
  unfold proxy_mode. intros H. apply andb_prop in H. destruct H as [_ H].
  apply Z.ltb_lt in H. split; [exact H|].
  destruct wf as [E|B]; [|exact B].
  rewrite E in H. cbn in H. lia.
Qed.

Lemma start_after_cycles (t0 : N) :
  after_cycles p t 0 (runContinuousTesting p t0 t).
Proof.
  constructor; cbn; try reflexivity.
  - intros _. eauto.
  - unfold target. intros H. lia.
  - unfold cursor_at. destruct (proxy_mode p t) eqn:E; [|reflexivity].
    destruct (proxy_mode_pool E) as [_ B].
    rewrite Z.add_0_r, Z.mod_small; [reflexivity|exact B].
Qed.

Lemma cycle (k : nat) (s : sched) :
  after_cycles p t k s ->
  (Z.of_nat k < target p)%Z ->
  exists s1 s2,
    step w c p s = Some s1 /\ step w c p s1 = Some s2 /\ after_cycles p t (S k) s2.
Proof.
  intros A Hk. destruct (ac_armed A Hk) as [due D].
  destruct (tick_fields w c p due s) as (f & E1 & R & S).
  destruct (tick_flight_window w c p due s) as (f' & F1 & I1 & _ & W).
  rewrite E1 in F1. cbn [in_flight] in F1. apply app_inj_tail in F1.
  destruct F1 as [_ <-]. specialize (W timely). clear I1.
  set (s1 := tick w c p due s) in *.
  assert (M : proxy_mode p (self s) = proxy_mode p t)
    by (unfold proxy_mode; rewrite (ac_pool A); reflexivity).
  (* the promise of this tick resolves *)
  assert (Hr : exists r, settled f = Returned r
                 /\ (routed f = Direct \/ exists cfg, routed f = Via (Some cfg))
                 /\ routed f = route_at p t k).
  { rewrite M, (ac_pool A), (ac_cursor A) in R.
    unfold route_at, cursor_at, rotation in *.
    destruct (proxy_mode p t) eqn:PM.
    - destruct (proxy_mode_pool PM) as [L _].
      destruct (@index_in_bounds _ (proxies t)
                  ((currentProxyIndex t + Z.of_nat k) mod JS.length (proxies t))%Z)
        as [cfg X]; [apply Z.mod_pos_bound; exact L|].
      rewrite X in R. rewrite R in S. destruct S as (_ & r & Sr & _).
      exists r. rewrite X. eauto.
    - rewrite R in S. destruct S as (_ & r & Sr & _). exists r. eauto. }
  destruct Hr as (r & Sr & Rcases & Rk).
  exists s1, (resume c p f [] s1). split; [|split].
  - unfold step, next_event. rewrite (ac_idle A), D. cbn [earliest event_time].
    rewrite not_interrupted. reflexivity.
  - unfold step, next_event. subst s1. rewrite E1. cbn [in_flight interval].
    rewrite (ac_idle A). cbn [app earliest].
    destruct (N.leb_spec (due + period p) (settles_at f)); [lia|].
    cbn [event_time]. rewrite not_interrupted. reflexivity.
  - assert (T1 : testsCompleted s1 = Z.of_nat k)
      by (subst s1; rewrite E1; exact (ac_count A)).
    constructor.
    + apply resume_in_flight.
    + rewrite resume_testsCompleted, T1. lia.
    + intros H. rewrite resume_interval, T1. unfold target in H.
      destruct (Z.geb_spec (Z.of_nat k + 1) (count p)); [lia|].
      subst s1. rewrite E1. cbn. eauto.
    + intros H. rewrite resume_interval, T1. unfold target in H.
      destruct (Z.geb_spec (Z.of_nat k + 1) (count p)); [reflexivity|lia].
    + assert (X : forall a, emitted a = results (console a)) by reflexivity.
      rewrite X, resume_console, Sr.
      rewrite !results_app, results_callback_lines.
      assert (Hs : results (console s1) = k).
      { subst s1. rewrite E1. exact (ac_emitted A). }
      rewrite Hs. destruct (testsCompleted s1 + 1 >=? count p)%Z; cbn; lia.
    + rewrite resume_self, Sr. subst s1. rewrite E1. cbn [self].
      destruct (routed f); [exact (ac_url A)|cbn; exact (ac_url A)].
    + rewrite resume_self, Sr. subst s1. rewrite E1. cbn [self].
      destruct (routed f); [exact (ac_pool A)|cbn; exact (ac_pool A)].
    + rewrite resume_self, Sr. subst s1. rewrite E1. cbn [self].
      pose proof (ac_cursor A) as C.
      rewrite Rk. unfold route_at, cursor_at in *.
      destruct (proxy_mode p t) eqn:PM; [|exact C].
      cbn [rotation currentProxyIndex].
      destruct (proxy_mode_pool PM) as [L _].
      rewrite C, (ac_pool A).
      unfold rem. rewrite Z.rem_mod_nonneg.
      * rewrite Zplus_mod_idemp_l. f_equal. lia.
      * pose proof (Z.mod_pos_bound (currentProxyIndex t + Z.of_nat k) _ L). lia.
      * exact L.
    + rewrite resume_dispatched. subst s1. rewrite E1. cbn [dispatched].
      rewrite (ac_routes A), Rk, seq_S, map_app. reflexivity.
Qed.

(** After [k] ticks and their probes, for every [k] up to the count. *)
Lemma cycles (t0 : N) (k : nat) :
  (Z.of_nat k <= target p)%Z ->
  after_cycles p t k (turns w c p (2 * k) (runContinuousTesting p t0 t)).
Proof.
  induction k as [|k IH]; intros Hk.
  - exact (start_after_cycles t0).
  - replace (2 * S k)%nat with (2 * k + 2)%nat by lia.
    rewrite turns_add.
    destruct (@cycle k _ (IH ltac:(lia)) ltac:(lia)) as (s1 & s2 & E1 & E2 & A).
    cbn [turns]. rewrite E1, E2. exact A.
Qed.

Lemma finished (k : nat) (s : sched) :
  after_cycles p t k s -> (target p <= Z.of_nat k)%Z -> step w c p s = None.
Proof.
  intros A H. unfold step, next_event.
  rewrite (ac_idle A), (ac_cleared A H). reflexivity.
Qed.

(** An uninterrupted run without overrun ends after [target p] ticks,
    with as many results printed. *)
Lemma run_without_overrun (t0 : N) (fuel : nat) :
  (2 * Z.to_nat (target p) <= fuel)%nat ->
  exists final,
    run w c p fuel (runContinuousTesting p t0 t) = Some final
    /\ after_cycles p t (Z.to_nat (target p)) final.
Proof.
  intros F.
  assert (T : Z.of_nat (Z.to_nat (target p)) = target p)
    by (unfold target; lia).
  assert (A : after_cycles p t (Z.to_nat (target p))
                (turns w c p (2 * Z.to_nat (target p)) (runContinuousTesting p t0 t)))
    by (apply cycles; lia).
  exists (turns w c p (2 * Z.to_nat (target p)) (runContinuousTesting p t0 t)).
  split; [|exact A].
  apply run_turns; [|exact F].
  apply (@finished (Z.to_nat (target p))); [exact A|lia].
Qed.

End CycleProofs.

(** Claim C2, amended.  For every count of at least one and every pool,
    a schedule that is not interrupted, in which no probe overruns the
    interval, started on an instance whose cursor points into its pool (as
    it does after construction), runs to completion and has then handed
    exactly [count] results to the console, whatever the outcome of each
    probe. *)
Theorem completed_schedule_emits_count (w : world) (c : capture) (p : schedule)
    (t0 : N) (t : tester) (fuel : nat) :
  sigint w = None ->
  no_overrun w p ->
  well_formed t ->
  (1 <= count p)%Z ->
  (2 * Z.to_nat (count p) <= fuel)%nat ->
  exists final,
    run w c p fuel (runContinuousTesting p t0 t) = Some final
    /\ emitted final = Z.to_nat (count p)
    /\ testsCompleted final = count p.
Proof.
  intros Q O W C F.
  assert (T : target p = count p) by (unfold target; lia).
  destruct (@run_without_overrun w c p t Q O W t0 fuel) as (final & R & A);
    [rewrite T; exact F|].
  rewrite T in A. exists final.
  split; [exact R|]. split; [exact (ac_emitted A)|].
  rewrite (ac_count A). lia.
Qed.

(** Three probes that all fail, through two proxies. *)
Lemma completed_schedule_emits_count_witness :
  (sigint dead_world = None
   /\ no_overrun dead_world (every_second true 3)
   /\ well_formed (new_tester "https://example.test" [proxyA; proxyB])
   /\ (1 <= count (every_second true 3))%Z
   /\ (2 * Z.to_nat (count (every_second true 3)) <= 6)%nat)
  /\ exists final,
       run dead_world RawText (every_second true 3) 6
         (runContinuousTesting (every_second true 3) 0
            (new_tester "https://example.test" [proxyA; proxyB])) = Some final
       /\ emitted final = Z.to_nat (count (every_second true 3))
       /\ testsCompleted final = count (every_second true 3).
Proof.
  assert (W : well_formed (new_tester "https://example.test" [proxyA; proxyB]))
    by (right; cbn; lia).
  assert (O : no_overrun dead_world (every_second true 3))
    by (intros t req; reflexivity).
  split.
  - split; [reflexivity|]. split; [exact O|]. split; [exact W|]. cbn. lia.
  - apply completed_schedule_emits_count;
      [reflexivity | exact O | exact W | cbn; lia | cbn; lia].
Defined.

(** Claim C2 as stated fails.  With a count of 0 the first tick still
    runs a probe and its result is printed; and with a count of 1, a
    period of 1 s and round trips of 2.5 s, three probes are started
    before the first one settles and all three results are printed. *)
Lemma count_is_not_always_met :
  (exists final,
     run fast_world RawText (every_second false 0) 10
       (runContinuousTesting (every_second false 0) 0
          (new_tester "https://example.test" [])) = Some final
     /\ count (every_second false 0) = 0%Z
     /\ emitted final = 1%nat)
  /\ (exists final,
        run slow_world RawText (every_second false 1) 10
          (runContinuousTesting (every_second false 1) 0
             (new_tester "https://example.test" [])) = Some final
        /\ count (every_second false 1) = 1%Z
        /\ emitted final = 3%nat).
Proof.
  split; eexists; (split; [vm_compute; reflexivity|]); split; reflexivity.
Qed.

Lemma nth_error_map_seq (A : Type) (f : nat -> A) (n k : nat) :
  (k < n)%nat -> nth_error (map f (seq 0 n)) k = Some (f k).
Proof.
  intros H. rewrite nth_error_map.
  rewrite (nth_error_nth' (seq 0 n) 0%nat) by (rewrite length_seq; exact H).
  rewrite seq_nth by exact H. reflexivity.
Qed.

(** Claim C3, amended.  In proxy mode on a freshly constructed instance
    with a non-empty pool, in an uninterrupted run in which no probe
    overruns the interval: tick [k] (counting from 0) goes through
    [pool[k mod L]], and after [M] ticks and their probes the cursor is
    [M mod L].  The callback moves the cursor to [(cursor + 1) % L]
    whenever a proxied probe returns a result, successful or failed. *)
Theorem rotation_without_overrun (w : world) (c : capture) (p : schedule)
    (t0 : N) (url : string) (pool : list ProxyConfig) (M : nat) :
  sigint w = None ->
  no_overrun w p ->
  useProxy p = true ->
  pool <> [] ->
  (Z.of_nat M <= count p)%Z ->
  (forall k, (k < M)%nat ->
     nth_error (dispatched (turns w c p (2 * M)
                              (runContinuousTesting p t0 (new_tester url pool)))) k
     = Some (Via (JS.index pool (Z.of_nat k mod JS.length pool)%Z)))
  /\ currentProxyIndex (self (turns w c p (2 * M)
                                (runContinuousTesting p t0 (new_tester url pool))))
     = (Z.of_nat M mod JS.length pool)%Z
  /\ (forall (f : flight) (rest : list flight) (s : sched) (r : LatencyResult)
             (x : option ProxyConfig),
        settled f = Returned r -> routed f = Via x ->
        currentProxyIndex (self (resume c p f rest s))
        = rem (currentProxyIndex (self s) + 1) (JS.length (proxies (self s)))).
Proof.
  intros Q O U NE HM.
  assert (L : (0 < JS.length pool)%Z).
  { unfold JS.length. destruct pool; [congruence|cbn; lia]. }
  assert (PM : proxy_mode p (new_tester url pool) = true).
  { unfold proxy_mode. rewrite U. cbn. apply Z.ltb_lt. exact L. }
  assert (W : well_formed (new_tester url pool)) by (right; cbn; lia).
  assert (A : after_cycles p (new_tester url pool) M
                (turns w c p (2 * M) (runContinuousTesting p t0 (new_tester url pool))))
    by (apply cycles; auto; unfold target; lia).
  split; [|split].
  - intros k Hk.
    rewrite (ac_routes A), nth_error_map_seq by exact Hk.
    unfold route_at. rewrite PM. reflexivity.
  - rewrite (ac_cursor A). unfold cursor_at. rewrite PM. reflexivity.
  - intros f rest s r x Sf Rf. rewrite resume_self, Sf, Rf. reflexivity.
Qed.

(** Four probes that all fail, through two proxies: the cursor is back
    at 0. *)
Lemma rotation_without_overrun_witness :
  (sigint dead_world = None
   /\ no_overrun dead_world (every_second true 4)
   /\ useProxy (every_second true 4) = true
   /\ [proxyA; proxyB] <> []
   /\ (Z.of_nat 4 <= count (every_second true 4))%Z)
  /\ currentProxyIndex
       (self (turns dead_world RawText (every_second true 4) (2 * 4)
                (runContinuousTesting (every_second true 4) 0
                   (new_tester "https://example.test" [proxyA; proxyB]))))
     = (Z.of_nat 4 mod JS.length [proxyA; proxyB])%Z.
Proof.
  assert (O : no_overrun dead_world (every_second true 4))
    by (intros t req; reflexivity).
  split.
  - split; [reflexivity|]. split; [exact O|]. split; [reflexivity|].
    split; [discriminate|]. cbn. lia.
  - destruct (@rotation_without_overrun dead_world RawText (every_second true 4) 0
                "https://example.test" [proxyA; proxyB] 4
                eq_refl O eq_refl ltac:(discriminate) ltac:(cbn; lia))
      as (_ & C & _).
    exact C.
Defined.

(** Claim C3 as stated fails.  With a period of 1 s and round trips of
    2.5 s the second tick fires before the first probe has settled, reads
    the cursor that has not moved yet, and goes through [pool[0]] again
    instead of [pool[1]]. *)
Lemma overrun_breaks_rotation :
  nth_error (dispatched (turns slow_world RawText (every_second true 2) 2
                           (runContinuousTesting (every_second true 2) 0
                              (new_tester "https://example.test" [proxyA; proxyB])))) 1
  <> Some (Via (JS.index [proxyA; proxyB] (Z.of_nat 1 mod JS.length [proxyA; proxyB])%Z)).
Proof. vm_compute. discriminate. Qed.

(** The scenario of the specification: four ticks over the pool [A, B]
    go through A, B, A, B and leave the cursor at 0. *)
Example four_ticks_two_proxies :
  exists final,
    run fast_world ParsedJson
      {| intervalMs := 500; useProxy := true; count := 4 |} 8
      (runContinuousTesting {| intervalMs := 500; useProxy := true; count := 4 |} 0
         (new_tester "https://example.test" [proxyA; proxyB])) = Some final
    /\ dispatched final
       = [Via (Some proxyA); Via (Some proxyB); Via (Some proxyA); Via (Some proxyB)]
    /\ labels (console final)
       = ["10.0.0.1:8080"; "10.0.0.2:8081"; "10.0.0.1:8080"; "10.0.0.2:8081"]
    /\ currentProxyIndex (self final) = 0%Z.
Proof. eexists. split; [vm_compute; reflexivity|]. repeat split. Qed.

End RotationFacts.

(* ================================================================== *)
(** * Facts about an empty pool *)

Module DirectFacts.

Import JS Prober Scheduler Spec ProberFacts SchedulerFacts.

Open Scope string_scope.
Open Scope list_scope.

Section DirectMode.

Variable w : world.
Variable c : capture.
Variable p : schedule.

Lemma empty_pool_mode (t : tester) : proxies t = [] -> proxy_mode p t = false.
Proof. unfold proxy_mode. intros ->. cbn. apply andb_false_r. Qed.

Lemma step_keeps_pool (s s' : sched) :
  step w c p s = Some s' -> proxies (self s') = proxies (self s).
Proof.
  unfold step. destruct (next_event s) as [e|]; [|discriminate].
  destruct (interrupted_by w (event_time e)); intros [= <-]; [reflexivity|].
  destruct e as [t|f rest]; cbn [handle].
  - destruct (tick_fields w c p t s) as (f & E & _). rewrite E. reflexivity.
  - rewrite resume_self. destruct (settled f); [destruct (routed f)|]; reflexivity.
Qed.

Lemma step_direct_only (s : sched) :
  proxies (self s) = [] -> step w c p s = step w c (direct_only p) s.
Proof.
  intros E. unfold step. destruct (next_event s) as [e|]; [|reflexivity].
  destruct (interrupted_by w (event_time e)); [reflexivity|]. f_equal.
  destruct e as [t|f rest]; cbn [handle]; [|reflexivity].
  unfold tick. cbn [self].
  rewrite (@empty_pool_mode (self s) E).
  unfold proxy_mode. rewrite E. cbn [direct_only useProxy andb]. reflexivity.
Qed.

Lemma turns_direct_only (n : nat) :
  forall s, proxies (self s) = [] ->
  turns w c p n s = turns w c (direct_only p) n s.
Proof.
  induction n as [|n IH]; intros s E; cbn [turns]; [reflexivity|].
  rewrite <- (@step_direct_only s E).
  destruct (step w c p s) as [s'|] eqn:X; [|reflexivity].
  apply IH. rewrite (@step_keeps_pool s s' X). exact E.
Qed.

Lemma run_direct_only (fuel : nat) :
  forall s, proxies (self s) = [] ->
  run w c p fuel s = run w c (direct_only p) fuel s.
Proof.
  induction fuel as [|fuel IH]; intros s E; cbn [run];
    rewrite <- (@step_direct_only s E);
    destruct (step w c p s) as [s'|] eqn:X; try reflexivity.
  apply IH. rewrite (@step_keeps_pool s s' X). exact E.
Qed.

Lemma start_direct_only (t0 : N) (t : tester) :
  proxies t = [] ->
  runContinuousTesting p t0 t = runContinuousTesting (direct_only p) t0 t.
Proof.
  intros E. unfold runContinuousTesting.
  rewrite (@empty_pool_mode t E).
  unfold proxy_mode. rewrite E. cbn [direct_only useProxy andb]. reflexivity.
Qed.

Lemma step_all_direct (s s' : sched) :
  proxies (self s) = [] -> all_direct s -> step w c p s = Some s' -> all_direct s'.
Proof.
  intros E A. unfold step. destruct (next_event s) as [e|] eqn:X; [|discriminate].
  destruct (interrupted_by w (event_time e)); intros [= <-].
  - constructor; cbn.
    + exact (ad_routes A).
    + constructor.
    + rewrite labels_app, app_nil_r. exact (ad_labels A).
  - destruct e as [t|f rest]; cbn [handle].
    + destruct (tick_fields w c p t s) as (f & T & R & S).
      rewrite (@empty_pool_mode (self s) E) in R. rewrite R in S.
      destruct S as (_ & r & Sr & Lr).
      rewrite T. constructor; cbn.
      * apply Forall_app. split; [exact (ad_routes A)|]. rewrite R. repeat constructor.
      * apply Forall_app. split; [exact (ad_flights A)|]. repeat constructor.
        -- exact R.
        -- rewrite Sr. exact Lr.
      * exact (ad_labels A).
    + destruct (@next_event_flight direct_flight s f rest X (ad_flights A))
        as [[Rf Sf] Hrest].
      constructor.
      * rewrite resume_dispatched. exact (ad_routes A).
      * rewrite resume_in_flight. exact Hrest.
      * rewrite resume_console. destruct (settled f) as [r|]; [|contradiction].
        rewrite !labels_app, labels_callback_lines.
        apply Forall_app. split; [exact (ad_labels A)|].
        apply Forall_app. split; [repeat constructor; symmetry; exact Sf|].
        destruct (_ >=? _)%Z; constructor.
Qed.

Lemma turns_all_direct (n : nat) :
  forall s, proxies (self s) = [] -> all_direct s -> all_direct (turns w c p n s).
Proof.
  induction n as [|n IH]; intros s E A; cbn [turns]; [exact A|].
  destruct (step w c p s) as [s'|] eqn:X; [|exact A].
  apply IH.
  - rewrite (@step_keeps_pool s s' X). exact E.
  - exact (@step_all_direct s s' E A X).
Qed.

Lemma start_all_direct (t0 : N) (t : tester) :
  all_direct (runContinuousTesting p t0 t).
Proof. constructor; cbn; constructor. Qed.

Lemma singleTest_empty_pool (u : bool) (i : option Z) (s : js) :
  proxies (this s) = [] -> singleTest w c u i s = testDirect w c s.
Proof.
  intros E. unfold singleTest, bind, get_this. cbn [fst snd].
  rewrite E. cbn. rewrite andb_false_r. reflexivity.
Qed.

End DirectMode.

(** Claim C6.  On an instance whose pool is empty, a schedule that asks
    for proxy mode runs, turn for turn and to the same final state, as the
    same schedule with proxy mode off; every probe is dispatched direct
    and every result printed carries the label "direct".  Likewise
    [singleTest] with the flag set does what it does with the flag
    cleared, and what it returns carries the label "direct". *)
Theorem empty_pool_is_direct_mode (w : world) (c : capture) (p : schedule)
    (t0 : N) (t : tester) :
  proxies t = [] ->
  (forall n, turns w c p n (runContinuousTesting p t0 t)
             = turns w c (direct_only p) n (runContinuousTesting (direct_only p) t0 t))
  /\ (forall fuel, run w c p fuel (runContinuousTesting p t0 t)
                   = run w c (direct_only p) fuel (runContinuousTesting (direct_only p) t0 t))
  /\ (forall n, Forall (eq Direct)
                  (dispatched (turns w c p n (runContinuousTesting p t0 t)))
                /\ Forall (eq "direct")
                     (labels (console (turns w c p n (runContinuousTesting p t0 t)))))
  /\ (forall (useProxy : bool) (proxyIndex : option Z) (clk : N),
        singleTest w c useProxy proxyIndex {| clock := clk; this := t |}
        = singleTest w c false proxyIndex {| clock := clk; this := t |}
        /\ returns (fun r => proxy r = "direct")
             (singleTest w c useProxy proxyIndex {| clock := clk; this := t |})).
Proof.
  intros E.
  split; [intros n | split; [intros fuel | split; [intros n; split | intros u i clk; split]]].
  - rewrite <- (@start_direct_only p t0 t E). apply turns_direct_only. exact E.
  - rewrite <- (@start_direct_only p t0 t E). apply run_direct_only. exact E.
  - apply ad_routes, turns_all_direct; [exact E | apply start_all_direct].
  - apply ad_labels, turns_all_direct; [exact E | apply start_all_direct].
  - rewrite !singleTest_empty_pool by exact E. reflexivity.
  - rewrite singleTest_empty_pool by exact E.
    destruct (probe_settles w c None {| clock := clk; this := t |})
      as (r & s' & X & _ & _ & _ & L & _).
    cbn [probe] in X. unfold returns. rewrite X. exact L.
Qed.

(** Three ticks on an instance constructed with an empty pool. *)
Lemma empty_pool_is_direct_mode_witness :
  proxies (new_tester "https://example.test" []) = []
  /\ run fast_world ParsedJson (every_second true 3) 6
       (runContinuousTesting (every_second true 3) 0 (new_tester "https://example.test" []))
     = run fast_world ParsedJson (direct_only (every_second true 3)) 6
         (runContinuousTesting (direct_only (every_second true 3)) 0
            (new_tester "https://example.test" [])).
Proof.
  split; [reflexivity|].
  apply (@empty_pool_is_direct_mode fast_world ParsedJson (every_second true 3) 0
           (new_tester "https://example.test" []) eq_refl).
Defined.

End DirectFacts.

(* ================================================================== *)
(** * Facts about [logResult] *)

Module LogFacts.

Import JS Prober Scheduler Spec ProberFacts SchedulerFacts Behaviour.

Open Scope string_scope.
Open Scope list_scope.

Lemma or_else_NA_truthy (x : option json) : truthy (or_else x NA) = true.
Proof.
  unfold or_else. destruct x as [v|]; [|reflexivity].
  destruct (truthy v) eqn:E; [exact E|reflexivity].
Qed.

Lemma logResult_first (c : capture) (r : LatencyResult) :
  hd Separator (fst (logResult c r))
  = ResultLine (timestamp r) (success r) (proxy r) (latency r).
Proof. log_cases c r; reflexivity. Qed.

Lemma logResult_error_line (c : capture) (r : LatencyResult) :
  existsb is_error_line (fst (logResult c r)) = negb (success r).
Proof. log_cases c r; reflexivity. Qed.

(** Property X1.  What [logResult] prints for any result, in both
    revisions: first the line of the result, the only such line; the
    error line exactly for a failed result, for which it never throws;
    lines of detail only for a successful one; a data line only with
    fields that are truthy (a falsy field is replaced) and that can be
    turned into text.  If it throws, it has printed the line of the
    result and nothing else. *)
Theorem logResult_detail_or_error (c : capture) (r : LatencyResult) :
  hd Separator (fst (logResult c r))
  = ResultLine (timestamp r) (success r) (proxy r) (latency r)
  /\ results (fst (logResult c r)) = 1%nat
  /\ existsb is_error_line (fst (logResult c r)) = negb (success r)
  /\ (success r = false -> snd (logResult c r) = Returned tt)
  /\ existsb is_detail (fst (logResult c r)) && negb (success r) = false
  /\ Forall (fun l => printable_fields l = true) (fst (logResult c r))
  /\ (forall e, snd (logResult c r) = Raised e ->
        fst (logResult c r)
        = [ResultLine (timestamp r) (success r) (proxy r) (latency r)]).
Proof.
  split; [apply logResult_first|].
  split; [apply results_logResult|].
  split; [apply logResult_error_line|].
  split; [log_cases c r; intros X; try discriminate X; reflexivity|].
  split; [log_cases c r; reflexivity|].
  split.
  - unfold logResult, data_detail, and_then, prints.
    destruct c; destruct (success r); cbn [negb fst snd app];
      repeat match goal with
             | |- context [match responseData r with _ => _ end] =>
                 destruct (responseData r)
             | |- context [if truthy ?v then _ else _] => destruct (truthy v)
             | |- context [match get ?v ?k with _ => _ end] =>
                 let d := fresh "d" in destruct (get v k) as [d|]
             | |- context [if (?a && ?b && ?c)%bool then _ else _] =>
                 let E := fresh "E" in destruct (a && b && c)%bool eqn:E
             | _ => progress cbn [fst snd app]
             end;
      repeat constructor.
    cbn [printable_fields]. rewrite !or_else_NA_truthy.
    cbn [andb]. assumption.
  - intros e X. destruct (logResult_raises c r X) as (_ & _ & _ & ->). reflexivity.
Qed.

(** Property X2.  [logResult] throws exactly on a successful result of
    the revision that parses JSON whose payload has a truthy [data] one
    of whose three fields, after the fallback, cannot be turned into
    text; what it throws is a [TypeError]. *)
Theorem logResult_throws_exactly (c : capture) (r : LatencyResult) (e : thrown) :
  snd (logResult c r) = Raised e
  <-> c = ParsedJson /\ success r = true /\ e = cannot_convert
      /\ exists payload data,
           responseData r = Some payload
           /\ get payload "data" = Some data
           /\ truthy data = true
           /\ (stringifies (or_else (get data "first_listed_at") NA)
               && stringifies (or_else (get data "category") NA)
               && stringifies (or_else (get data "title") NA) = false).
Proof.
  split.
  - unfold logResult, data_detail, and_then, prints.
    destruct c; destruct (success r); cbn [negb fst snd app];
      try discriminate.
    destruct (responseData r) as [payload|]; cbn [fst snd]; [|discriminate].
    destruct (truthy payload); cbn [fst snd]; [|discriminate].
    destruct (get payload "data") as [data|] eqn:G; cbn [fst snd]; [|discriminate].
    destruct (truthy data) eqn:T; cbn [fst snd]; [|discriminate].
    destruct (_ && _ && _)%bool eqn:X; cbn [fst snd]; [discriminate|].
    intros [= <-]. repeat split. exists payload, data. auto.
  - intros (-> & S & -> & payload & data & P & G & T & X).
    assert (Tp : truthy payload = true).
    { destruct payload; cbn in G; try discriminate G. reflexivity. }
    unfold logResult, data_detail, and_then, prints.
    rewrite S, P. cbn [negb fst snd]. rewrite Tp, G, T, X. reflexivity.
Qed.

Lemma logResult_throws_exactly_witness :
  snd (logResult ParsedJson unprintable_result) = Raised cannot_convert
  /\ success unprintable_result = true.
Proof.
  split; [reflexivity|].
  destruct (proj1 (@logResult_throws_exactly ParsedJson unprintable_result
                     cannot_convert) eq_refl) as (_ & S & _).
  exact S.
Defined.

(** Property X3.  What is printed for the result of a probe: the head
    line shows the wall clock at the start of the probe and the label of
    the route, no line interpolates [undefined], and for a failed
    exchange [logResult] returns after the line of the error, whose text
    is the message of the caught [Error]. *)
Theorem logResult_of_probe (w : world) (c : capture) (via : option ProxyConfig) (s : js) :
  exists r s',
    probe w c via s = (Returned r, s')
    /\ hd Separator (fst (logResult c r))
       = ResultLine (wallclock w (clock s)) (success r)
           match via with
           | None => "direct"
           | Some cfg => ip cfg ++ ":" ++ string_of_number (port cfg)
           end
           (latency r)
    /\ Forall (fun l => defined_fields l = true) (fst (logResult c r))
    /\ match failure_of c (network w (clock s) (request_of (this s) via)) with
       | Some (e, _) =>
           logResult c r
           = (ResultLine (wallclock w (clock s)) false (proxy r) (latency r)
              :: ErrorLine (Some match e with
                                 | ErrorObject message => message
                                 | ThrownString text => text
                                 | ThrownUndefined => "undefined"
                                 | ThrownNull => "null"
                                 end)
              :: match c with ParsedJson => [] | RawText => [Separator] end,
              Returned tt)
       | None => existsb is_error_line (fst (logResult c r)) = false
       end.
Proof.
  destruct (probe_settles w c via s) as (r & s' & E & _ & _ & T & L & _ & H).
  exists r, s'. split; [exact E|].
  split.
  { rewrite logResult_first, T, L. destruct via; reflexivity. }
  destruct (failure_of c _) as [[e dt]|].
  - subst r. destruct c; destruct e; cbn; split; repeat constructor.
  - destruct H as (Hs & He & Hp). split.
    + revert Hp. unfold payload_present.
      log_cases c r; try discriminate Hs; intros Hp; try discriminate Hp;
        repeat constructor.
      all: cbn in Hp; destruct (statusCode r); try discriminate Hp;
        destruct (responseBody r); try discriminate Hp; repeat constructor.
    + rewrite logResult_error_line, Hs. reflexivity.
Qed.

End LogFacts.

(* ================================================================== *)
(** * Facts about one exchange *)

Module ExchangeFacts.

Import JS Prober Scheduler Spec ProberFacts SchedulerFacts Behaviour Samples.

Open Scope string_scope.
Open Scope list_scope.

(** Property X4.  A probe reads the wall clock once and hands one
    request to the network, both at the instant it starts, and nothing
    else of its environment reaches the result: in two environments that
    agree on that reading and on that exchange the probe returns the same
    result at the same instant.  There is no retry and no second
    request. *)
Theorem probe_single_exchange (w w' : world) (c : capture)
    (via : option ProxyConfig) (s : js) :
  wallclock w (clock s) = wallclock w' (clock s) ->
  network w (clock s) (request_of (this s) via)
  = network w' (clock s) (request_of (this s) via) ->
  probe w c via s = probe w' c via s.
Proof.
  intros W N. destruct via as [cfg|]; run_probe; rewrite W; run_probe;
    cbv beta iota zeta delta [request_of agent_of option_map] in N;
    rewrite N; reflexivity.
Qed.

Lemma probe_single_exchange_witness :
  (wallclock fast_world 0 = wallclock flaky_world 0
   /\ network fast_world 0 (request_of (new_tester "https://example.test" []) None)
      = network flaky_world 0 (request_of (new_tester "https://example.test" []) None))
  /\ probe fast_world ParsedJson None
       {| clock := 0; this := new_tester "https://example.test" [] |}
     = probe flaky_world ParsedJson None
         {| clock := 0; this := new_tester "https://example.test" [] |}.
Proof.
  split; [split; reflexivity|].
  apply (@probe_single_exchange fast_world flaky_world ParsedJson None
           {| clock := 0; this := new_tester "https://example.test" [] |});
    reflexivity.
Defined.

(** Property X5.  When the head of a response arrives after [dt]
    nanoseconds, the promise of the probe settles only after the body
    was read, [body_elapsed] later.  The latency of a successful result
    is [Number(dt) / 1_000_000]: it leaves the time of reading the body
    out.  When reading the body fails the result is a failed one and its
    latency covers the time of reading the body too. *)
Theorem latency_excludes_body (w : world) (c : capture)
    (via : option ProxyConfig) (s : js) (dt : N) (r : response) :
  network w (clock s) (request_of (this s) via) = Responded dt r ->
  exists res s',
    probe w c via s = (Returned res, s')
    /\ clock s' = (clock s + dt + body_elapsed r)%N
    /\ match body_failure c r with
       | None =>
           success res = true
           /\ latency res = div (Number_of_bigint (Z.of_N dt)) one_million
       | Some e =>
           success res = false
           /\ latency res
              = div (Number_of_bigint (Z.of_N (dt + body_elapsed r))) one_million
       end.
Proof.
  intros N.
  destruct (probe_settles w c via s) as (res & s' & E & C & _ & _ & _ & L & H).
  rewrite N in C, L, H. cbn [round_trip measured failure_of] in C, L, H.
  exists res, s'. split; [exact E|]. split; [rewrite C; lia|].
  assert (M : forall d, milliseconds (Z.of_N (clock s)) (Z.of_N (clock s + d))
                        = div (Number_of_bigint (Z.of_N d)) one_million).
  { intros d. unfold milliseconds. do 2 f_equal. lia. }
  rewrite M in L.
  destruct (body_failure c r) as [e|].
  - split; [subst res; reflexivity|exact L].
  - split; [tauto|exact L].
Qed.

Lemma latency_excludes_body_witness :
  network heavy_world 0 (request_of (new_tester "https://example.test" []) None)
  = Responded 100000000
      {| res_statusCode := 200; body_elapsed := 900000000;
         body_json := Resolves (JObject []); body_text := Resolves "{}" |}
  /\ exists res s',
       probe heavy_world RawText None
         {| clock := 0; this := new_tester "https://example.test" [] |}
       = (Returned res, s')
       /\ clock s' = 1000000000%N
       /\ success res = true
       /\ latency res = div (Number_of_bigint 100000000) one_million.
Proof.
  split; [reflexivity|].
  destruct (@latency_excludes_body heavy_world RawText None
              {| clock := 0; this := new_tester "https://example.test" [] |}
              100000000
              {| res_statusCode := 200; body_elapsed := 900000000;
                 body_json := Resolves (JObject []); body_text := Resolves "{}" |}
              eq_refl) as (res & s' & E & C & S & L).
  exists res, s'. repeat split; assumption.
Defined.

(** Property X6.  On a non-empty pool [singleTest(true, i)] with
    [i >= 0] is the probe through the pool's entry [i mod length], and
    its result carries the label of that entry; [singleTest(false, j)] is
    the direct probe whatever [j] is. *)
Theorem singleTest_selects (w : world) (c : capture) (s : js) (i : Z) :
  proxies (this s) <> [] ->
  (0 <= i)%Z ->
  exists cfg,
    nth_error (proxies (this s))
      (Z.to_nat (i mod JS.length (proxies (this s)))) = Some cfg
    /\ singleTest w c true (Some i) s = testWithProxy w c (Some cfg) s
    /\ returns (fun r => proxy r = label_of (Some cfg))
         (singleTest w c true (Some i) s)
    /\ forall j : option Z, singleTest w c false j s = testDirect w c s.
Proof.
  intros NE Hi.
  assert (L : (0 < JS.length (proxies (this s)))%Z).
  { unfold JS.length. destruct (proxies (this s)); [congruence|cbn; lia]. }
  pose proof (Z.mod_pos_bound i _ L) as B.
  destruct (index_in_bounds (proxies (this s)) B) as [cfg I].
  exists cfg.
  assert (E : singleTest w c true (Some i) s = testWithProxy w c (Some cfg) s).
  { unfold singleTest, bind, get_this. cbn [fst snd andb].
    destruct (Z.ltb_spec 0 (JS.length (proxies (this s)))); [|lia].
    unfold rem. rewrite Z.rem_mod_nonneg by lia. rewrite I. reflexivity. }
  split.
  - unfold JS.index in I. destruct (Z.ltb_spec (i mod JS.length (proxies (this s))) 0);
      [lia|exact I].
  - split; [exact E|]. split.
    + rewrite E.
      destruct (probe_settles w c (Some cfg) s) as (r & s' & X & _ & _ & _ & Lr & _).
      cbn [probe] in X. unfold returns. rewrite X. exact Lr.
    + intros j. reflexivity.
Qed.

Lemma singleTest_selects_witness :
  ([proxyA; proxyB] <> [] /\ (0 <= 3)%Z)
  /\ singleTest fast_world ParsedJson true (Some 3%Z)
       {| clock := 0; this := new_tester "https://example.test" [proxyA; proxyB] |}
     = testWithProxy fast_world ParsedJson (Some proxyB)
         {| clock := 0; this := new_tester "https://example.test" [proxyA; proxyB] |}.
Proof.
  split; [split; [discriminate|lia]|].
  destruct (@singleTest_selects fast_world ParsedJson
              {| clock := 0; this := new_tester "https://example.test" [proxyA; proxyB] |}
              3 ltac:(discriminate) ltac:(lia)) as (cfg & N & E & _).
  cbn in N. injection N as <-. exact E.
Defined.

End ExchangeFacts.

(* ================================================================== *)
(** * The counter, the console and the probes *)

Module LedgerFacts.

Import JS Prober Scheduler Spec ProberFacts SchedulerFacts DirectFacts Behaviour Samples.

Open Scope string_scope.
Open Scope list_scope.

(** ** Counting lines *)

Lemma filter_none (A : Type) (f : A -> bool) (l : list A) :
  Forall (fun a => f a = false) l -> filter f l = [].
Proof.
  induction 1 as [|a l H _ IH]; [reflexivity|].
  cbn [filter]. rewrite H. exact IH.
Qed.

Lemma scheduling_errors_app (a b : list line) :
  scheduling_errors (a ++ b) = (scheduling_errors a + scheduling_errors b)%nat.
Proof. unfold scheduling_errors. rewrite filter_app, length_app. reflexivity. Qed.

Lemma scheduling_errors_callback (c : capture) (o : outcome LatencyResult) :
  scheduling_errors (callback_lines c o)
  = if is_some (callback_error c o) then 1%nat else 0%nat.
Proof.
  unfold callback_lines. rewrite scheduling_errors_app.
  assert (E : scheduling_errors match o with
                                | Returned r => fst (logResult c r)
                                | Raised _ => []
                                end = 0%nat).
  { unfold scheduling_errors. rewrite filter_none; [reflexivity|].
    destruct o; [apply logResult_not_scheduling_error|constructor]. }
  rewrite E. destruct (callback_error c o); reflexivity.
Qed.

Lemma results_callback (c : capture) (o : outcome LatencyResult) :
  results (callback_lines c o)
  = match o with Returned _ => 1%nat | Raised _ => 0%nat end.
Proof.
  destruct o as [r|e]; [apply results_callback_lines|reflexivity].
Qed.

Lemma callback_error_raw (o : outcome LatencyResult) :
  is_some (callback_error RawText o)
  = match o with Returned _ => false | Raised _ => true end.
Proof.
  destruct o as [r|e]; [|reflexivity]. cbn [callback_error].
  destruct (snd (logResult RawText r)) as [u|e] eqn:L; [reflexivity|].
  destruct (logResult_raises RawText r L) as (C & _). discriminate C.
Qed.

Lemma forced_app (a b : list line) : forced (a ++ b) = (forced a + forced b)%nat.
Proof. unfold forced. rewrite filter_app, length_app. reflexivity. Qed.

Lemma forced_callback (c : capture) (o : outcome LatencyResult) :
  forced (callback_lines c o) = 0%nat.
Proof.
  unfold callback_lines. rewrite forced_app.
  assert (E : forced match o with
                     | Returned r => fst (logResult c r)
                     | Raised _ => []
                     end = 0%nat).
  { destruct o as [r|e]; [|reflexivity]. log_cases c r; reflexivity. }
  rewrite E. destruct (callback_error c o); reflexivity.
Qed.

Lemma earliest_None (fs : list flight) : earliest fs = None -> fs = [].
Proof.
  destruct fs as [|g fs]; [reflexivity|]. cbn [earliest].
  destruct (earliest fs) as [[h others]|]; [|discriminate].
  destruct (settles_at g <=? settles_at h)%N; discriminate.
Qed.

Lemma earliest_length (fs : list flight) :
  forall f rest, earliest fs = Some (f, rest) ->
  List.length fs = S (List.length rest).
Proof.
  induction fs as [|g fs IH]; intros f rest E; [discriminate|].
  cbn [earliest] in E. destruct (earliest fs) as [[h others]|] eqn:X.
  - specialize (IH h others eq_refl).
    destruct (settles_at g <=? settles_at h)%N; inversion E; subst; cbn; lia.
  - inversion E; subst. rewrite (earliest_None fs X). reflexivity.
Qed.

Lemma next_event_length (s : sched) (f : flight) (rest : list flight) :
  next_event s = Some (Settle f rest) ->
  List.length (in_flight s) = S (List.length rest).
Proof.
  unfold next_event. intros E.
  destruct (earliest (in_flight s)) as [[g others]|] eqn:X.
  - apply (@earliest_length (in_flight s) f rest).
    destruct (interval s) as [due|].
    + destruct (due <=? settles_at g)%N; inversion E; subst. exact X.
    + inversion E; subst. exact X.
  - destruct (interval s); discriminate.
Qed.

Section Ledger.

Variable w : world.
Variable c : capture.
Variable p : schedule.

Lemma step_counted (s s' : sched) :
  counted s -> step w c p s = Some s' -> counted s'.
Proof.
  unfold counted, emitted. intros H. unfold step.
  destruct (next_event s) as [e|]; [|discriminate].
  destruct (interrupted_by w (event_time e)); intros [= <-].
  - cbn [interrupt console testsCompleted].
    rewrite results_app, scheduling_errors_app. cbn. lia.
  - destruct e as [t|f rest]; cbn [handle].
    + destruct (tick_fields w c p t s) as (f & T & _). rewrite T. exact H.
    + rewrite resume_testsCompleted, resume_console.
      rewrite !results_app, !scheduling_errors_app.
      rewrite results_callback, scheduling_errors_callback.
      destruct (settled f) as [r|e]; cbn [callback_error is_some];
        [destruct (snd (logResult c r))|];
        destruct (_ >=? _)%Z; cbn; lia.
Qed.

(** Where every promise resolves, the counter is the number of results. *)
Lemma step_counted_results (s s' : sched) :
  healthy s -> testsCompleted s = Z.of_nat (emitted s) ->
  step w c p s = Some s' -> testsCompleted s' = Z.of_nat (emitted s').
Proof.
  unfold emitted. intros Hl H. unfold step.
  destruct (next_event s) as [e|] eqn:X; [|discriminate].
  destruct (interrupted_by w (event_time e)); intros [= <-].
  - cbn [interrupt console testsCompleted]. rewrite results_app. cbn. lia.
  - destruct e as [t|f rest]; cbn [handle].
    + destruct (tick_fields w c p t s) as (f & T & _). rewrite T. exact H.
    + destruct (@next_event_flight resolves s f rest X (hl_flights Hl))
        as [[r Sr] _].
      rewrite resume_testsCompleted, resume_console, Sr.
      rewrite !results_app, results_callback, H.
      destruct (_ >=? _)%Z; cbn; lia.
Qed.

(** In the revision that prints the raw body a callback prints a result
    or a scheduling error, never both. *)
Lemma step_counted_raw (s s' : sched) :
  c = RawText ->
  testsCompleted s = Z.of_nat (emitted s + scheduling_errors (console s)) ->
  step w c p s = Some s' ->
  testsCompleted s' = Z.of_nat (emitted s' + scheduling_errors (console s')).
Proof.
  unfold emitted. intros C H. unfold step.
  destruct (next_event s) as [e|]; [|discriminate].
  destruct (interrupted_by w (event_time e)); intros [= <-].
  - cbn [interrupt console testsCompleted].
    rewrite results_app, scheduling_errors_app. cbn. lia.
  - destruct e as [t|f rest]; cbn [handle].
    + destruct (tick_fields w c p t s) as (f & T & _). rewrite T. exact H.
    + rewrite resume_testsCompleted, resume_console.
      rewrite !results_app, !scheduling_errors_app.
      rewrite results_callback, scheduling_errors_callback, C, callback_error_raw.
      destruct (settled f) as [r|e]; destruct (_ >=? _)%Z; cbn; lia.
Qed.

Lemma step_started (s s' : sched) :
  (testsCompleted s + Z.of_nat (List.length (in_flight s))
   <= Z.of_nat (List.length (dispatched s)))%Z ->
  step w c p s = Some s' ->
  (testsCompleted s' + Z.of_nat (List.length (in_flight s'))
   <= Z.of_nat (List.length (dispatched s')))%Z.
Proof.
  intros H. unfold step.
  destruct (next_event s) as [e|] eqn:X; [|discriminate].
  destruct (interrupted_by w (event_time e)); intros [= <-].
  - cbn. lia.
  - destruct e as [t|f rest]; cbn [handle].
    + destruct (tick_fields w c p t s) as (f & T & _). rewrite T. cbn.
      rewrite !length_app. cbn. lia.
    + rewrite resume_testsCompleted, resume_in_flight, resume_dispatched.
      rewrite (next_event_length s X) in H. lia.
Qed.

Lemma step_started_exactly (s s' : sched) :
  sigint w = None ->
  (testsCompleted s + Z.of_nat (List.length (in_flight s))
   = Z.of_nat (List.length (dispatched s)))%Z ->
  step w c p s = Some s' ->
  (testsCompleted s' + Z.of_nat (List.length (in_flight s'))
   = Z.of_nat (List.length (dispatched s')))%Z.
Proof.
  intros Q H. unfold step.
  destruct (next_event s) as [e|] eqn:X; [|discriminate].
  unfold interrupted_by. rewrite Q. intros [= <-].
  destruct e as [t|f rest]; cbn [handle].
  - destruct (tick_fields w c p t s) as (f & T & _). rewrite T. cbn.
    rewrite !length_app. cbn. lia.
  - rewrite resume_testsCompleted, resume_in_flight, resume_dispatched.
    rewrite (next_event_length s X) in H. lia.
Qed.

Lemma step_shut_down (s s' : sched) :
  shut_down s -> step w c p s = Some s' -> shut_down s'.
Proof.
  intros [H|(_ & _ & I & F)].
  - unfold step. destruct (next_event s) as [e|]; [|discriminate].
    destruct (interrupted_by w (event_time e)); intros [= <-].
    + right. cbn [interrupt console testsCompleted interval in_flight].
      rewrite forced_app, H, last_last. cbn. auto.
    + left. destruct e as [t|f rest]; cbn [handle].
      * destruct (tick_fields w c p t s) as (f & T & _). rewrite T. exact H.
      * rewrite resume_console, !forced_app, H.
        rewrite forced_callback. destruct (_ >=? _)%Z; reflexivity.
  - unfold step, next_event. rewrite I, F. discriminate.
Qed.

Lemma step_never_forced (s s' : sched) :
  sigint w = None ->
  forced (console s) = 0%nat -> step w c p s = Some s' -> forced (console s') = 0%nat.
Proof.
  intros Q H. unfold step. destruct (next_event s) as [e|]; [|discriminate].
  unfold interrupted_by. rewrite Q. intros [= <-].
  destruct e as [t|f rest]; cbn [handle].
  - destruct (tick_fields w c p t s) as (f & T & _). rewrite T. exact H.
  - rewrite resume_console, !forced_app, H.
    rewrite forced_callback. destruct (_ >=? _)%Z; reflexivity.
Qed.

End Ledger.

Lemma run_counted (w : world) (c : capture) (p : schedule)
    (t0 : N) (t : tester) (n : nat) :
  counted (turns w c p n (runContinuousTesting p t0 t)).
Proof.
  apply (@turns_invariant w c p (fun s => counted s)).
  - intros s s'. apply step_counted.
  - unfold counted. cbn. lia.
Qed.

Lemma run_counts_results (w : world) (c : capture) (p : schedule)
    (t0 : N) (t : tester) (n : nat) :
  well_formed t ->
  testsCompleted (turns w c p n (runContinuousTesting p t0 t))
  = Z.of_nat (emitted (turns w c p n (runContinuousTesting p t0 t))).
Proof.
  intros W.
  apply (@turns_invariant w c p
           (fun s => healthy s /\ testsCompleted s = Z.of_nat (emitted s))).
  - intros s s' [H E] S. split.
    + exact (@step_healthy w c p s s' H S).
    + exact (@step_counted_results w c p s s' H E S).
  - split; [|reflexivity]. constructor; cbn; [exact W|constructor].
Qed.

(** Property X7.  The counter against the console, at every point of
    every run, interrupted or not, overrunning or not: the counter is at
    least the number of results printed and at least the number of
    scheduling errors printed, and at most their sum.  On an instance
    whose cursor points into its pool it is the number of results
    printed; in the revision that prints the raw body it is the sum. *)
Theorem counter_matches_console (w : world) (c : capture) (p : schedule)
    (t0 : N) (t : tester) (n : nat) :
  let s := turns w c p n (runContinuousTesting p t0 t) in
  (Z.of_nat (emitted s) <= testsCompleted s)%Z
  /\ (Z.of_nat (scheduling_errors (console s)) <= testsCompleted s)%Z
  /\ (testsCompleted s <= Z.of_nat (emitted s + scheduling_errors (console s)))%Z
  /\ (well_formed t -> testsCompleted s = Z.of_nat (emitted s))
  /\ (c = RawText ->
      testsCompleted s = Z.of_nat (emitted s + scheduling_errors (console s))).
Proof.
  intros s. subst s.
  destruct (run_counted w c p t0 t n) as (A1 & A2 & A3).
  split; [exact A1|]. split; [exact A2|]. split; [exact A3|]. split.
  - apply run_counts_results.
  - intros C.
    apply (@turns_invariant w c p
             (fun s => testsCompleted s
                       = Z.of_nat (emitted s + scheduling_errors (console s)))).
    + intros s s'. apply step_counted_raw. exact C.
    + reflexivity.
Qed.

Lemma counter_matches_console_witness :
  well_formed (new_tester "https://example.test" [proxyA; proxyB])
  /\ testsCompleted (turns unprintable_world ParsedJson (every_second true 3) 4
                       (runContinuousTesting (every_second true 3) 0
                          (new_tester "https://example.test" [proxyA; proxyB])))
     = Z.of_nat (emitted (turns unprintable_world ParsedJson (every_second true 3) 4
                            (runContinuousTesting (every_second true 3) 0
                               (new_tester "https://example.test" [proxyA; proxyB])))).
Proof.
  assert (W : well_formed (new_tester "https://example.test" [proxyA; proxyB])).
  { right. cbn. lia. }
  split; [exact W|].
  destruct (@counter_matches_console unprintable_world ParsedJson (every_second true 3)
              0 (new_tester "https://example.test" [proxyA; proxyB]) 4%nat)
    as (_ & _ & _ & H & _).
  exact (H W).
Defined.

(** Property X8.  Every probe that was dispatched is in flight or has
    been counted, and none is counted twice: the counter and the number
    of probes in flight never add up to more than the number of probes
    dispatched, and in an uninterrupted run they add up to exactly that
    number. *)
Theorem every_probe_counted_once (w : world) (c : capture) (p : schedule)
    (t0 : N) (t : tester) (n : nat) :
  (testsCompleted (turns w c p n (runContinuousTesting p t0 t))
   + Z.of_nat (List.length (in_flight (turns w c p n (runContinuousTesting p t0 t))))
   <= Z.of_nat (List.length (dispatched (turns w c p n (runContinuousTesting p t0 t)))))%Z
  /\ (sigint w = None ->
      (testsCompleted (turns w c p n (runContinuousTesting p t0 t))
       + Z.of_nat (List.length (in_flight (turns w c p n (runContinuousTesting p t0 t))))
       = Z.of_nat (List.length (dispatched (turns w c p n (runContinuousTesting p t0 t)))))%Z).
Proof.
  split.
  - apply (@turns_invariant w c p
             (fun s => (testsCompleted s + Z.of_nat (List.length (in_flight s))
                        <= Z.of_nat (List.length (dispatched s)))%Z)).
    + intros s s'. apply step_started.
    + cbn. lia.
  - intros Q.
    apply (@turns_invariant w c p
             (fun s => (testsCompleted s + Z.of_nat (List.length (in_flight s))
                        = Z.of_nat (List.length (dispatched s)))%Z)).
    + intros s s'. apply step_started_exactly. exact Q.
    + reflexivity.
Qed.


End LedgerFacts.

(* ================================================================== *)
(** * The two modes *)

Module ModeFacts.

Import JS Prober Scheduler Spec ProberFacts SchedulerFacts DirectFacts Behaviour Samples LedgerFacts.

Open Scope string_scope.
Open Scope list_scope.

Section Modes.

Variable w : world.
Variable c : capture.
Variable p : schedule.

(** The console only grows. *)
Lemma step_console_grows (s s' : sched) :
  step w c p s = Some s' -> exists tail, console s' = console s ++ tail.
Proof.
  unfold step. destruct (next_event s) as [e|]; [|discriminate].
  destruct (interrupted_by w (event_time e)); intros [= <-].
  - eexists. reflexivity.
  - destruct e as [t|f rest]; cbn [handle].
    + destruct (tick_fields w c p t s) as (f & T & _). rewrite T.
      exists []. cbn. rewrite app_nil_r. reflexivity.
    + rewrite resume_console. eexists. reflexivity.
Qed.

Lemma turns_console_grows (n : nat) (s : sched) :
  exists tail, console (turns w c p n s) = console s ++ tail.
Proof.
  apply (@turns_invariant w c p (fun x => exists tail, console x = console s ++ tail)).
  - intros a b [tail E] H. destruct (step_console_grows a H) as [more E'].
    exists (tail ++ more). rewrite E', E, app_assoc. reflexivity.
  - exists []. rewrite app_nil_r. reflexivity.
Qed.

Lemma mode_line_stays (t0 : N) (t : tester) (n : nat) :
  nth_error (console (turns w c p n (runContinuousTesting p t0 t))) 2
  = Some (ModeLine (if proxy_mode p t then "Proxy rotation" else "Direct connection")).
Proof.
  destruct (turns_console_grows n (runContinuousTesting p t0 t)) as [tail ->].
  reflexivity.
Qed.

(** *** Proxy mode off *)

Lemma step_direct_untouched (t : tester) (s s' : sched) :
  proxy_mode p t = false ->
  self s = t /\ all_direct s ->
  step w c p s = Some s' ->
  self s' = t /\ all_direct s'.
Proof.
  intros PM [E A]. unfold step. destruct (next_event s) as [e|] eqn:X; [|discriminate].
  destruct (interrupted_by w (event_time e)); intros [= <-].
  - split; [exact E|]. constructor; cbn.
    + exact (ad_routes A).
    + constructor.
    + rewrite labels_app, app_nil_r. exact (ad_labels A).
  - destruct e as [due|f rest]; cbn [handle].
    + destruct (tick_fields w c p due s) as (f & T & R & S).
      rewrite E, PM in R. rewrite R in S. destruct S as (_ & r & Sr & Lr).
      rewrite T. split; [exact E|]. constructor; cbn.
      * apply Forall_app. split; [exact (ad_routes A)|]. rewrite R. repeat constructor.
      * apply Forall_app. split; [exact (ad_flights A)|]. repeat constructor.
        -- exact R.
        -- rewrite Sr. exact Lr.
      * exact (ad_labels A).
    + destruct (@next_event_flight direct_flight s f rest X (ad_flights A))
        as [[Rf Sf] Hrest].
      split.
      * rewrite resume_self, Rf. destruct (settled f); exact E.
      * constructor.
        -- rewrite resume_dispatched. exact (ad_routes A).
        -- rewrite resume_in_flight. exact Hrest.
        -- rewrite resume_console. destruct (settled f) as [r|]; [|contradiction].
           rewrite !labels_app, labels_callback_lines.
           apply Forall_app. split; [exact (ad_labels A)|].
           apply Forall_app. split; [repeat constructor; symmetry; exact Sf|].
           destruct (_ >=? _)%Z; constructor.
Qed.

(** *** Proxy mode on *)

Lemma step_rotating (pool : list ProxyConfig) (s s' : sched) :
  useProxy p = true ->
  rotating pool s -> step w c p s = Some s' -> rotating pool s'.
Proof.
  intros U A. unfold step. destruct (next_event s) as [e|] eqn:X; [|discriminate].
  destruct (interrupted_by w (event_time e)); intros [= <-].
  - constructor; cbn.
    + exact (rt_pool A).
    + exact (rt_cursor A).
    + exact (rt_routes A).
    + constructor.
    + rewrite labels_app, app_nil_r. exact (rt_labels A).
  - destruct e as [due|f rest]; cbn [handle].
    + destruct (tick_fields w c p due s) as (f & T & R & S).
      assert (PM : proxy_mode p (self s) = true).
      { unfold proxy_mode. rewrite U, (rt_pool A). cbn [andb].
        apply Z.ltb_lt. pose proof (rt_cursor A). lia. }
      rewrite PM, (rt_pool A) in R.
      destruct (index_in_bounds pool (rt_cursor A)) as [cfg I].
      rewrite I in R. rewrite R in S. destruct S as (_ & r & Sr & Lr).
      assert (Hin : In cfg pool).
      { unfold JS.index in I.
        destruct (currentProxyIndex (self s) <? 0)%Z; [discriminate|].
        exact (nth_error_In _ _ I). }
      rewrite T. constructor; cbn.
      * exact (rt_pool A).
      * exact (rt_cursor A).
      * apply Forall_app. split; [exact (rt_routes A)|].
        repeat constructor. exists cfg. split; [exact R|exact Hin].
      * apply Forall_app. split; [exact (rt_flights A)|].
        repeat constructor. exists cfg, r. auto.
      * exact (rt_labels A).
    + destruct (@next_event_flight _ s f rest X (rt_flights A))
        as [(cfg & r & Hin & Rf & Sf & Lf) Hrest].
      constructor.
      * rewrite resume_self, Sf, Rf. exact (rt_pool A).
      * rewrite resume_self, Sf, Rf. cbn [currentProxyIndex].
        rewrite (rt_pool A). pose proof (rt_cursor A). unfold rem.
        apply Z.rem_bound_pos; lia.
      * rewrite resume_dispatched. exact (rt_routes A).
      * rewrite resume_in_flight. exact Hrest.
      * rewrite resume_console, Sf, !labels_app, labels_callback_lines.
        apply Forall_app. split; [exact (rt_labels A)|].
        apply Forall_app. split.
        -- repeat constructor. rewrite Lf.
           apply (in_map (fun x => label_of (Some x))). exact Hin.
        -- destruct (_ >=? _)%Z; constructor.
Qed.

(** *** The [catch] block *)

Lemma step_template_errors (s s' : sched) :
  healthy s -> template_errors_only c s -> step w c p s = Some s' ->
  template_errors_only c s'.
Proof.
  intros H Q. unfold step. destruct (next_event s) as [e|] eqn:X; [|discriminate].
  destruct (interrupted_by w (event_time e)); intros [= <-].
  - unfold template_errors_only. cbn. apply Forall_app. split; [exact Q|].
    constructor; [intros X'; discriminate X'|constructor].
  - destruct e as [t|f rest]; cbn [handle].
    + destruct (tick_fields w c p t s) as (f & T & _). rewrite T. exact Q.
    + destruct (@next_event_flight resolves s f rest X (hl_flights H))
        as [[r Sr] _].
      unfold template_errors_only. rewrite resume_console, Sr.
      apply Forall_app. split; [exact Q|].
      apply Forall_app. split.
      * unfold callback_lines. apply Forall_app. split.
        -- eapply Forall_impl; [|apply logResult_not_scheduling_error].
           cbn beta. intros l E E'. congruence.
        -- cbn [callback_error].
           destruct (snd (logResult c r)) as [u|e] eqn:L; [constructor|].
           destruct (logResult_raises c r L) as (C & _ & -> & _).
           constructor; [intros _; split; [exact C|reflexivity]|constructor].
      * destruct (_ >=? _)%Z; [|constructor].
        constructor; [intros X'; discriminate X'|constructor].
Qed.

End Modes.

(** Property X10.  With proxy mode off (the flag is false, or the pool
    is empty) a run never touches the instance, whatever its pool and
    cursor are: every probe is dispatched directly, every result is
    labelled [direct], and the third line of the console announces a
    direct connection. *)
Theorem direct_mode_leaves_instance (w : world) (c : capture) (p : schedule)
    (t0 : N) (t : tester) (n : nat) :
  proxy_mode p t = false ->
  self (turns w c p n (runContinuousTesting p t0 t)) = t
  /\ Forall (eq Direct) (dispatched (turns w c p n (runContinuousTesting p t0 t)))
  /\ Forall (eq "direct") (labels (console (turns w c p n (runContinuousTesting p t0 t))))
  /\ nth_error (console (turns w c p n (runContinuousTesting p t0 t))) 2
     = Some (ModeLine "Direct connection").
Proof.
  intros PM.
  assert (H : self (turns w c p n (runContinuousTesting p t0 t)) = t
              /\ all_direct (turns w c p n (runContinuousTesting p t0 t))).
  { apply (@turns_invariant w c p (fun s => self s = t /\ all_direct s)).
    - intros s s'. apply step_direct_untouched. exact PM.
    - split; [reflexivity|]. constructor; cbn; constructor. }
  destruct H as [E A].
  split; [exact E|]. split; [exact (ad_routes A)|]. split; [exact (ad_labels A)|].
  rewrite mode_line_stays, PM. reflexivity.
Qed.

Lemma direct_mode_leaves_instance_witness :
  proxy_mode (every_second false 3)
    {| targetUrl := "https://example.test"; proxies := [proxyA; proxyB];
       currentProxyIndex := 1 |} = false
  /\ self (turns slow_world RawText (every_second false 3) 6
             (runContinuousTesting (every_second false 3) 0
                {| targetUrl := "https://example.test"; proxies := [proxyA; proxyB];
                   currentProxyIndex := 1 |}))
     = {| targetUrl := "https://example.test"; proxies := [proxyA; proxyB];
          currentProxyIndex := 1 |}.
Proof.
  split; [reflexivity|].
  apply (@direct_mode_leaves_instance slow_world RawText (every_second false 3) 0
           {| targetUrl := "https://example.test"; proxies := [proxyA; proxyB];
              currentProxyIndex := 1 |} 6 eq_refl).
Defined.

(** Property X11.  In proxy mode on an instance whose cursor points
    into its pool, every probe of a run, overrunning or not, goes through
    an entry of the pool and every result is labelled with an entry of
    the pool; the pool is never changed and the cursor never leaves it;
    the third line of the console announces the rotation. *)
Theorem proxied_ticks_use_pool_entries (w : world) (c : capture) (p : schedule)
    (t0 : N) (t : tester) (n : nat) :
  proxy_mode p t = true ->
  well_formed t ->
  Forall (through (proxies t))
    (dispatched (turns w c p n (runContinuousTesting p t0 t)))
  /\ Forall (fun l => In l (map (fun cfg => label_of (Some cfg)) (proxies t)))
       (labels (console (turns w c p n (runContinuousTesting p t0 t))))
  /\ proxies (self (turns w c p n (runContinuousTesting p t0 t))) = proxies t
  /\ (0 <= currentProxyIndex (self (turns w c p n (runContinuousTesting p t0 t)))
      < JS.length (proxies t))%Z
  /\ nth_error (console (turns w c p n (runContinuousTesting p t0 t))) 2
     = Some (ModeLine "Proxy rotation").
Proof.
  intros PM W.
  assert (U : useProxy p = true /\ (0 < JS.length (proxies t))%Z).
  { unfold proxy_mode in PM. apply andb_prop in PM. destruct PM as [U L].
    apply Z.ltb_lt in L. auto. }
  destruct U as [U L].
  assert (B : (0 <= currentProxyIndex t < JS.length (proxies t))%Z).
  { destruct W as [E|B]; [|exact B]. rewrite E in L. cbn in L. lia. }
  assert (A : rotating (proxies t) (turns w c p n (runContinuousTesting p t0 t))).
  { apply turns_invariant.
    - intros s s'. apply step_rotating. exact U.
    - constructor; cbn; [reflexivity|exact B|constructor|constructor|constructor]. }
  split; [exact (rt_routes A)|]. split; [exact (rt_labels A)|].
  split; [exact (rt_pool A)|]. split; [exact (rt_cursor A)|].
  rewrite mode_line_stays, PM. reflexivity.
Qed.

Lemma proxied_ticks_use_pool_entries_witness :
  (proxy_mode (every_second true 2) (new_tester "https://example.test" [proxyA; proxyB]) = true
   /\ well_formed (new_tester "https://example.test" [proxyA; proxyB]))
  /\ Forall (through [proxyA; proxyB])
       (dispatched (turns slow_world RawText (every_second true 2) 5
                      (runContinuousTesting (every_second true 2) 0
                         (new_tester "https://example.test" [proxyA; proxyB])))).
Proof.
  assert (W : well_formed (new_tester "https://example.test" [proxyA; proxyB]))
    by (right; cbn; lia).
  split; [split; [reflexivity|exact W]|].
  apply (@proxied_ticks_use_pool_entries slow_world RawText (every_second true 2) 0
           (new_tester "https://example.test" [proxyA; proxyB]) 5 eq_refl W).
Defined.

(** Property X12.  On an instance whose cursor points into its pool, at
    every point of every run: no promise a tick awaits rejects, so the
    only way into the [catch] block is a [TypeError] of the template
    literal of [logResult], in the revision that parses JSON; every
    scheduling error on the console is that error, there are no more of
    them than results, and the revision that prints the raw body shows
    none.  The cursor keeps pointing into the pool. *)
Theorem catch_block_only_from_template (w : world) (c : capture) (p : schedule)
    (t0 : N) (t : tester) (n : nat) :
  well_formed t ->
  let s := turns w c p n (runContinuousTesting p t0 t) in
  Forall (fun l => is_scheduling_error l = true ->
                   c = ParsedJson /\ l = SchedulingErrorLine cannot_convert)
    (console s)
  /\ (scheduling_errors (console s) <= emitted s)%nat
  /\ (c = RawText -> scheduling_errors (console s) = 0%nat)
  /\ Forall (fun f => exists r, settled f = Returned r) (in_flight s)
  /\ well_formed (self s).
Proof.
  intros W s. subst s.
  assert (H : healthy (turns w c p n (runContinuousTesting p t0 t))
              /\ template_errors_only c (turns w c p n (runContinuousTesting p t0 t))).
  { apply (@turns_invariant w c p (fun s => healthy s /\ template_errors_only c s)).
    - intros s s' [H Q] S. split.
      + exact (@step_healthy w c p s s' H S).
      + exact (@step_template_errors w c p s s' H Q S).
    - split.
      + constructor; cbn; [exact W|constructor].
      + unfold template_errors_only. cbn.
        repeat (constructor; [intros X; discriminate X|]). constructor. }
  destruct H as [H Q].
  destruct (run_counted w c p t0 t n) as (_ & B & _).
  pose proof (run_counts_results w c p t0 n W) as E.
  split; [exact Q|]. split; [lia|]. split.
  - intros C. unfold scheduling_errors. rewrite filter_none; [reflexivity|].
    eapply Forall_impl; [|exact Q]. cbn beta. intros l X.
    destruct (is_scheduling_error l); [|reflexivity].
    destruct (X eq_refl) as [C' _]. congruence.
  - split; [exact (hl_flights H)|exact (hl_cursor H)].
Qed.

Lemma catch_block_only_from_template_witness :
  well_formed (new_tester "https://example.test" [proxyA; proxyB])
  /\ scheduling_errors
       (console (turns slow_world RawText (every_second true 2) 9
                   (runContinuousTesting (every_second true 2) 0
                      (new_tester "https://example.test" [proxyA; proxyB])))) = 0%nat.
Proof.
  assert (W : well_formed (new_tester "https://example.test" [proxyA; proxyB]))
    by (right; cbn; lia).
  split; [exact W|].
  destruct (@catch_block_only_from_template slow_world RawText (every_second true 2) 0
              (new_tester "https://example.test" [proxyA; proxyB]) 9 W)
    as (_ & _ & H & _).
  exact (H eq_refl).
Defined.

End ModeFacts.

(* ================================================================== *)
(** * Termination *)

Module EndFacts.

Import JS Prober Scheduler Spec ProberFacts SchedulerFacts DirectFacts Behaviour Samples LedgerFacts.

Open Scope string_scope.
Open Scope list_scope.

Lemma period_positive (p : schedule) : (0 < period p)%N.
Proof.
  unfold period, timer_delay, ns_per_ms.
  destruct ((intervalMs p <? 1)%Z || (2147483647 <? intervalMs p)%Z) eqn:E; [lia|].
  apply orb_false_elim in E. destruct E as [E _]. apply Z.ltb_ge in E. lia.
Qed.

Lemma earliest_smallest (fs : list flight) :
  forall f rest, earliest fs = Some (f, rest) ->
  In f fs /\ Forall (fun g => (settles_at f <= settles_at g)%N) fs.
Proof.
  induction fs as [|g fs IH]; intros f rest E; [discriminate|].
  cbn [earliest] in E. destruct (earliest fs) as [[h others]|] eqn:X.
  - destruct (IH h others eq_refl) as [Hin Hall].
    destruct (N.leb_spec (settles_at g) (settles_at h)); inversion E; subst.
    + split; [left; reflexivity|]. constructor; [lia|].
      apply (Forall_impl _ (P := fun x => (settles_at h <= settles_at x)%N));
        [intros x Hx; lia|exact Hall].
    + split; [right; exact Hin|]. constructor; [lia|exact Hall].
  - inversion E; subst. rewrite (earliest_None fs X).
    split; [left; reflexivity|]. repeat constructor. lia.
Qed.

Lemma earliest_some (fs : list flight) :
  fs <> [] -> exists f rest, earliest fs = Some (f, rest).
Proof.
  intros NE. destruct (earliest fs) as [[f rest]|] eqn:E; [eauto|].
  elim NE. exact (earliest_None fs E).
Qed.

Section Ending.

Variable w : world.
Variable c : capture.
Variable p : schedule.

Lemma ends_now (s : sched) : step w c p s = None -> ends w c p s.
Proof. intros E. exists 0%nat, s. cbn [run]. rewrite E. reflexivity. Qed.

Lemma ends_later (s s' : sched) : step w c p s = Some s' -> ends w c p s' -> ends w c p s.
Proof.
  intros E (fuel & final & R). exists (S fuel), final. cbn [run]. rewrite E. exact R.
Qed.

Lemma interrupt_ends (t : N) (s : sched) : ends w c p (interrupt t s).
Proof. apply ends_now. reflexivity. Qed.

(** Once the timer is cleared only the probes in flight remain. *)
Lemma cleared_ends (n : nat) :
  forall s, interval s = None -> (List.length (in_flight s) <= n)%nat -> ends w c p s.
Proof.
  induction n as [|n IH]; intros s I L.
  - apply ends_now. unfold step, next_event. rewrite I.
    destruct (in_flight s); [reflexivity|cbn in L; lia].
  - destruct (earliest (in_flight s)) as [[f rest]|] eqn:X.
    + assert (N : next_event s = Some (Settle f rest))
        by (unfold next_event; rewrite I, X; reflexivity).
      pose proof (earliest_length (in_flight s) X) as Len.
      destruct (interrupted_by w (settles_at f)) eqn:B.
      * apply (@ends_later s (interrupt (match sigint w with Some i => i | None => now s end) s));
          [|apply interrupt_ends].
        unfold step. rewrite N. cbn [event_time]. rewrite B. reflexivity.
      * apply (@ends_later s (resume c p f rest s)).
        -- unfold step. rewrite N. cbn [event_time]. rewrite B. reflexivity.
        -- apply IH.
           ++ rewrite resume_interval, I. destruct (_ >=? _)%Z; reflexivity.
           ++ rewrite resume_in_flight. lia.
    + apply ends_now. unfold step, next_event. rewrite I, X. reflexivity.
Qed.

Section Bounded.

(** States that need at most [R] more probes to settle before the count
    is reached. *)
Variable R : Z.

Hypothesis after_settle :
  forall s f rest,
    (count p - testsCompleted s <= R)%Z -> interval s <> None ->
    ends w c p (resume c p f rest s).

(** The timer fires at most [K] times before the first probe in flight
    settles. *)
Lemma ticking_ends (K : nat) :
  forall s due f rest,
    (count p - testsCompleted s <= R)%Z ->
    interval s = Some due ->
    earliest (in_flight s) = Some (f, rest) ->
    (settles_at f < due + N.of_nat K * period p)%N ->
    ends w c p s.
Proof.
  pose proof (period_positive p) as PP.
  assert (Settles : forall s due f rest,
            (count p - testsCompleted s <= R)%Z ->
            interval s = Some due ->
            earliest (in_flight s) = Some (f, rest) ->
            (settles_at f < due)%N -> ends w c p s).
  { intros s due f rest A I X Lt.
    assert (N : next_event s = Some (Settle f rest)).
    { unfold next_event. rewrite I, X.
      destruct (N.leb_spec due (settles_at f)); [lia|reflexivity]. }
    destruct (interrupted_by w (settles_at f)) eqn:B.
    - apply (@ends_later s (interrupt (match sigint w with Some i => i | None => now s end) s));
        [|apply interrupt_ends].
      unfold step. rewrite N. cbn [event_time]. rewrite B. reflexivity.
    - apply (@ends_later s (resume c p f rest s)).
      + unfold step. rewrite N. cbn [event_time]. rewrite B. reflexivity.
      + apply after_settle; [exact A|congruence]. }
  induction K as [|K IH]; intros s due f rest A I X Lt.
  - apply (Settles s due f rest A I X). lia.
  - destruct (N.leb_spec due (settles_at f)) as [Le|Gt];
      [|exact (Settles s due f rest A I X Gt)].
    assert (N : next_event s = Some (Expire due)).
    { unfold next_event. rewrite I, X.
      destruct (N.leb_spec due (settles_at f)); [reflexivity|lia]. }
    destruct (interrupted_by w due) eqn:B.
    + apply (@ends_later s (interrupt (match sigint w with Some i => i | None => now s end) s));
        [|apply interrupt_ends].
      unfold step. rewrite N. cbn [event_time]. rewrite B. reflexivity.
    + apply (@ends_later s (tick w c p due s)).
      * unfold step. rewrite N. cbn [event_time]. rewrite B. reflexivity.
      * destruct (tick_fields w c p due s) as (f' & T & _).
        destruct (@earliest_some (in_flight s ++ [f'])) as (g & rest' & X');
          [destruct (in_flight s); discriminate|].
        destruct (earliest_smallest _ X') as [_ Hall].
        destruct (earliest_smallest _ X) as [Hin _].
        rewrite Forall_forall in Hall.
        pose proof (Hall f (in_or_app _ _ _ (or_introl Hin))) as Hle.
        apply (IH (tick w c p due s) (due + period p)%N g rest').
        -- rewrite T. exact A.
        -- rewrite T. reflexivity.
        -- rewrite T. exact X'.
        -- lia.
Qed.

Lemma bounded_ends (s : sched) :
  (count p - testsCompleted s <= R)%Z -> ends w c p s.
Proof.
  pose proof (period_positive p) as PP.
  intros A.
  destruct (interval s) as [due|] eqn:I;
    [|exact (@cleared_ends (List.length (in_flight s)) s I (le_n _))].
  destruct (earliest (in_flight s)) as [[f rest]|] eqn:X.
  - apply (@ticking_ends (S (N.to_nat (settles_at f))) s due f rest A I X). nia.
  - assert (N : next_event s = Some (Expire due))
      by (unfold next_event; rewrite I, X; reflexivity).
    destruct (interrupted_by w due) eqn:B.
    + apply (@ends_later s (interrupt (match sigint w with Some i => i | None => now s end) s));
        [|apply interrupt_ends].
      unfold step. rewrite N. cbn [event_time]. rewrite B. reflexivity.
    + apply (@ends_later s (tick w c p due s)).
      * unfold step. rewrite N. cbn [event_time]. rewrite B. reflexivity.
      * destruct (tick_fields w c p due s) as (f' & T & _).
        rewrite (earliest_None _ X) in T. cbn [app] in T.
        apply (@ticking_ends (S (N.to_nat (settles_at f'))) (tick w c p due s)
                 (due + period p)%N f' []).
        -- rewrite T. exact A.
        -- rewrite T. reflexivity.
        -- rewrite T. reflexivity.
        -- nia.
Qed.

End Bounded.

Lemma needing_ends (R : nat) :
  forall s, (count p - testsCompleted s <= Z.of_nat R)%Z -> ends w c p s.
Proof.
  induction R as [|R IH]; apply bounded_ends; intros s f rest A I.
  - apply (@cleared_ends (List.length rest)).
    + rewrite resume_interval.
      destruct (Z.geb_spec (testsCompleted s + 1) (count p)); [reflexivity|lia].
    + rewrite resume_in_flight. apply le_n.
  - destruct (Z.geb_spec (testsCompleted s + 1) (count p)) as [G|G].
    + apply (@cleared_ends (List.length rest)).
      * rewrite resume_interval.
        destruct (Z.geb_spec (testsCompleted s + 1) (count p)); [reflexivity|lia].
      * rewrite resume_in_flight. apply le_n.
    + apply IH. rewrite resume_testsCompleted. lia.
Qed.

End Ending.


End EndFacts.

(* ================================================================== *)
(** * The transcript of a run *)

Module TranscriptFacts.

Import JS Prober Scheduler Spec ProberFacts SchedulerFacts RotationFacts DirectFacts Behaviour Samples LedgerFacts.

Open Scope string_scope.
Open Scope list_scope.

Lemma tick_exact (w : world) (c : capture) (p : schedule) (due : N) (s : sched) :
  tick w c p due s
  = {| self := self s; testsCompleted := testsCompleted s;
       interval := Some (due + period p)%N;
       in_flight :=
         in_flight s
         ++ [{| settles_at :=
                  clock (snd (probe_of_route w c (route_of p (self s))
                                {| clock := due; this := self s |}));
                settled :=
                  fst (probe_of_route w c (route_of p (self s))
                         {| clock := due; this := self s |});
                routed := route_of p (self s) |}];
       console := console s; now := due;
       dispatched := dispatched s ++ [route_of p (self s)] |}.
Proof.
  unfold tick, route_of. cbn [self now].
  destruct (proxy_mode p (self s)); unfold dispatch, probe_of_route;
    cbn [self now testsCompleted interval in_flight console dispatched];
    match goal with |- context [let '(_, _) := ?x in _] => destruct x end;
    reflexivity.
Qed.

Lemma tick_time_succ (p : schedule) (t0 : N) (k : nat) :
  (tick_time p t0 k + period p = tick_time p t0 (S k))%N.
Proof. unfold tick_time. lia. Qed.

Lemma transcript_succ (w : world) (c : capture) (p : schedule) (t0 : N)
    (t : tester) (k : nat) :
  transcript w c p t0 t (S k)
  = transcript w c p t0 t k ++ callback_lines c (result_of_tick w c p t0 t k).
Proof.
  unfold transcript. rewrite seq_S, flat_map_app. cbn [flat_map Nat.add].
  rewrite app_nil_r, app_assoc. reflexivity.
Qed.

Section OnSchedule.

Variable w : world.
Variable c : capture.
Variable p : schedule.
Variable t : tester.
Variable t0 : N.

Hypothesis quiet : sigint w = None.
Hypothesis timely : no_overrun w p.
Hypothesis wf : well_formed t.

Lemma tester_at_mode (k : nat) : proxy_mode p (tester_at p t k) = proxy_mode p t.
Proof. reflexivity. Qed.

Lemma target_positive : (1 <= target p)%Z.
Proof. unfold target. lia. Qed.

Lemma start_on_schedule : on_schedule w c p t0 t 0 (runContinuousTesting p t0 t).
Proof.
  pose proof target_positive as TP.
  constructor; cbn [runContinuousTesting in_flight testsCompleted interval self console].
  - reflexivity.
  - reflexivity.
  - destruct (Z.ltb_spec (Z.of_nat 0) (target p)); [|lia].
    unfold tick_time. f_equal. lia.
  - unfold tester_at, cursor_at. destruct t as [u pool c0]. cbn.
    destruct (proxy_mode p _) eqn:PM; [|reflexivity].
    destruct (@proxy_mode_pool _ _ wf PM) as [_ B]. cbn in B.
    rewrite Z.add_0_r, Z.mod_small by exact B. reflexivity.
  - destruct (Z.ltb_spec (Z.of_nat 0) (target p)); [|lia].
    unfold transcript. cbn. reflexivity.
Qed.

Lemma route_of_tester_at (k : nat) :
  route_of p (tester_at p t k) = route_at p t k.
Proof.
  unfold route_of. change (proxy_mode p (tester_at p t k)) with (proxy_mode p t).
  unfold route_at, rotation, tester_at, cursor_at. cbn [proxies currentProxyIndex].
  destruct (proxy_mode p t); reflexivity.
Qed.

(** The probe of tick [k] returns a result, stamped at the instant of
    the tick, and settles before the next tick. *)
Lemma tick_result (k : nat) :
  exists r s',
    probe_of_route w c (route_of p (tester_at p t k))
      {| clock := tick_time p t0 k; this := tester_at p t k |} = (Returned r, s')
    /\ (clock s' < tick_time p t0 k + period p)%N
    /\ timestamp r = wallclock w (tick_time p t0 k).
Proof.
  rewrite route_of_tester_at. unfold route_at, rotation.
  destruct (proxy_mode p t) eqn:PM.
  - destruct (@proxy_mode_pool _ _ wf PM) as [L _].
    destruct (@index_in_bounds _ (proxies t)
                ((currentProxyIndex t + Z.of_nat k) mod JS.length (proxies t))%Z)
      as [cfg X]; [apply Z.mod_pos_bound; exact L|].
    rewrite X. cbn [probe_of_route].
    destruct (probe_settles w c (Some cfg)
                {| clock := tick_time p t0 k; this := tester_at p t k |})
      as (r & s' & E & C & _ & T & _).
    cbn [probe clock this] in *. exists r, s'. split; [exact E|]. split; [|exact T].
    rewrite C. specialize (timely (tick_time p t0 k)
                             (request_of (tester_at p t k) (Some cfg))). lia.
  - cbn [probe_of_route].
    destruct (probe_settles w c None
                {| clock := tick_time p t0 k; this := tester_at p t k |})
      as (r & s' & E & C & _ & T & _).
    cbn [probe clock this] in *. exists r, s'. split; [exact E|]. split; [|exact T].
    rewrite C. specialize (timely (tick_time p t0 k)
                             (request_of (tester_at p t k) None)). lia.
Qed.

Lemma tester_at_succ (k : nat) :
  match route_of p (tester_at p t k) with
  | Via _ =>
      {| targetUrl := targetUrl (tester_at p t k);
         proxies := proxies (tester_at p t k);
         currentProxyIndex :=
           rem (currentProxyIndex (tester_at p t k) + 1)
             (JS.length (proxies (tester_at p t k))) |}
  | Direct => tester_at p t k
  end = tester_at p t (S k).
Proof.
  unfold route_of. change (proxy_mode p (tester_at p t k)) with (proxy_mode p t).
  unfold tester_at, cursor_at. cbn [targetUrl proxies currentProxyIndex].
  destruct (proxy_mode p t) eqn:PM; [|reflexivity].
  destruct (@proxy_mode_pool _ _ wf PM) as [L _]. f_equal. unfold rem.
  rewrite Z.rem_mod_nonneg.
  - rewrite Zplus_mod_idemp_l. f_equal. lia.
  - pose proof (Z.mod_pos_bound (currentProxyIndex t + Z.of_nat k) _ L). lia.
  - exact L.
Qed.

Lemma on_schedule_cycle (k : nat) (s : sched) :
  on_schedule w c p t0 t k s ->
  (Z.of_nat k < target p)%Z ->
  exists s1 s2,
    step w c p s = Some s1 /\ step w c p s1 = Some s2
    /\ on_schedule w c p t0 t (S k) s2.
Proof.
  intros A Hk.
  pose proof (os_timer A) as D.
  destruct (Z.ltb_spec (Z.of_nat k) (target p)) as [_|]; [|lia].
  pose proof (os_console A) as Co.
  destruct (Z.ltb_spec (Z.of_nat k) (target p)) as [_|]; [|lia].
  rewrite app_nil_r in Co.
  destruct (tick_result k) as (r & j & E & W & T).
  pose proof (tick_exact w c p (tick_time p t0 k) s) as X.
  rewrite (os_self A), E, (os_idle A) in X. cbn [fst snd app] in X.
  set (f := {| settles_at := clock j; settled := Returned r;
               routed := route_of p (tester_at p t k) |}) in *.
  exists (tick w c p (tick_time p t0 k) s),
         (resume c p f [] (tick w c p (tick_time p t0 k) s)).
  split; [|split].
  - unfold step, next_event. rewrite (os_idle A), D. cbn [earliest event_time].
    rewrite (@not_interrupted w quiet _). reflexivity.
  - unfold step, next_event. rewrite X. cbn [in_flight interval earliest].
    destruct (N.leb_spec (tick_time p t0 k + period p) (settles_at f)) as [Le|_];
      [cbn [f settles_at] in Le; lia|].
    cbn [event_time]. rewrite (@not_interrupted w quiet _). reflexivity.
  - assert (RC : (testsCompleted (tick w c p (tick_time p t0 k) s) + 1 >=? count p)%Z
                 = negb (Z.of_nat (S k) <? target p)%Z).
    { rewrite X. cbn [testsCompleted]. rewrite (os_count A). unfold target.
      destruct (Z.geb_spec (Z.of_nat k + 1) (count p));
        destruct (Z.ltb_spec (Z.of_nat (S k)) (Z.max 1 (count p))); cbn; lia. }
    constructor.
    + apply resume_in_flight.
    + rewrite resume_testsCompleted, X. cbn [testsCompleted]. rewrite (os_count A). lia.
    + rewrite resume_interval, RC, X. cbn [interval].
      rewrite tick_time_succ.
      destruct (Z.of_nat (S k) <? target p)%Z; reflexivity.
    + rewrite resume_self, X. cbn [settled f routed self].
      rewrite <- tester_at_succ.
      destruct (route_of p (tester_at p t k)); reflexivity.
    + rewrite resume_console, RC, X. cbn [settled f console testsCompleted].
      rewrite transcript_succ. unfold ended_with_errors, result_of_tick.
      rewrite E. cbn [fst is_some].
      rewrite Co, (os_count A), <- app_assoc.
      replace (Z.of_nat k + 1)%Z with (Z.of_nat (S k)) by lia.
      destruct (Z.of_nat (S k) <? target p)%Z; reflexivity.
Qed.

Lemma on_schedule_turns (k : nat) :
  (Z.of_nat k <= target p)%Z ->
  on_schedule w c p t0 t k (turns w c p (2 * k) (runContinuousTesting p t0 t)).
Proof.
  induction k as [|k IH]; intros Hk.
  - exact start_on_schedule.
  - replace (2 * S k)%nat with (2 * k + 2)%nat by lia.
    rewrite turns_add.
    destruct (@on_schedule_cycle k _ (IH ltac:(lia)) ltac:(lia)) as (s1 & s2 & E1 & E2 & A).
    cbn [turns]. rewrite E1, E2. exact A.
Qed.

End OnSchedule.

(** Property X14.  The whole console of a run that is not interrupted,
    in which no probe overruns the interval, on an instance whose cursor
    points into its pool: the five lines of the header, then for each
    tick in turn what its callback prints for the result of its probe
    (the probe of tick [k] starts at [t0 + (k + 1) * period], on the
    instance as [k] advances of the cursor leave it), then the notice of
    completion, which says [with errors] exactly when the callback of the
    last tick ended in its [catch] block.  Every tick's probe returns a
    result, stamped with the wall clock at the instant of the tick. *)
Theorem run_prints_transcript (w : world) (c : capture) (p : schedule)
    (t0 : N) (t : tester) (fuel : nat) :
  sigint w = None ->
  no_overrun w p ->
  well_formed t ->
  (2 * Z.to_nat (target p) <= fuel)%nat ->
  exists final,
    run w c p fuel (runContinuousTesting p t0 t) = Some final
    /\ console final
       = transcript w c p t0 t (Z.to_nat (target p))
         ++ [CompletedLine (target p)
               (ended_with_errors w c p t0 t (Z.to_nat (target p)))]
    /\ forall k : nat,
         exists r,
           result_of_tick w c p t0 t k = Returned r
           /\ timestamp r = wallclock w (t0 + N.of_nat (S k) * period p)%N.
Proof.
  intros Q O W F.
  assert (T : Z.of_nat (Z.to_nat (target p)) = target p) by (unfold target; lia).
  pose proof (@on_schedule_turns w c p t t0 Q O W (Z.to_nat (target p)) ltac:(lia)) as A.
  exists (turns w c p (2 * Z.to_nat (target p)) (runContinuousTesting p t0 t)).
  split; [|split].
  - apply run_turns; [|exact F].
    unfold step, next_event. rewrite (os_idle A), (os_timer A), T.
    rewrite Z.ltb_irrefl. reflexivity.
  - rewrite (os_console A), T, Z.ltb_irrefl. reflexivity.
  - intros k. destruct (@tick_result w c p t t0 O W k) as (r & j & E & _ & Ts).
    exists r. unfold result_of_tick. rewrite E. split; [reflexivity|exact Ts].
Qed.

Lemma run_prints_transcript_witness :
  (sigint dead_world = None
   /\ no_overrun dead_world (every_second true 3)
   /\ well_formed (new_tester "https://example.test" [proxyA; proxyB])
   /\ (2 * Z.to_nat (target (every_second true 3)) <= 6)%nat)
  /\ exists final,
       run dead_world RawText (every_second true 3) 6
         (runContinuousTesting (every_second true 3) 0
            (new_tester "https://example.test" [proxyA; proxyB])) = Some final
       /\ console final
          = transcript dead_world RawText (every_second true 3) 0
              (new_tester "https://example.test" [proxyA; proxyB])
              (Z.to_nat (target (every_second true 3)))
            ++ [CompletedLine (target (every_second true 3))
                  (ended_with_errors dead_world RawText (every_second true 3) 0
                     (new_tester "https://example.test" [proxyA; proxyB])
                     (Z.to_nat (target (every_second true 3))))].
Proof.
  assert (W : well_formed (new_tester "https://example.test" [proxyA; proxyB]))
    by (right; cbn; lia).
  assert (O : no_overrun dead_world (every_second true 3))
    by (intros t req; reflexivity).
  split.
  - split; [reflexivity|]. split; [exact O|]. split; [exact W|]. cbn. lia.
  - destruct (@run_prints_transcript dead_world RawText (every_second true 3) 0
                (new_tester "https://example.test" [proxyA; proxyB]) 6
                eq_refl O W ltac:(cbn; lia)) as (final & R & C & _).
    exists final. split; assumption.
Defined.

End TranscriptFacts.

(* ================================================================== *)
(** * Facts about [main] *)

Module MainFacts.

Import JS Prober Scheduler Spec ProberFacts SchedulerFacts RotationFacts DirectFacts.
Import Program Behaviour Samples LedgerFacts ModeFacts.

Open Scope string_scope.
Open Scope list_scope.

Lemma main_tester_well_formed : well_formed (new_tester main_targetUrl [main_proxy]).
Proof. right. cbn. lia. Qed.

(** Property X15.  [main] of the revision that parses JSON: it prints
    the banner of the proxy rotation and starts a run every 1000 ms with
    the proxy flag on and the default count.  With its pool of one proxy
    every probe of the run goes through that proxy and is labelled
    [38.154.227.167:5868], the cursor stays 0, and a run that is not
    interrupted and in which no probe overruns prints ten results. *)
Theorem main_rotates_over_one_proxy (w : world) (t0 : N) (n : nat) :
  fst (main ParsedJson t0) = "=== Testing with Proxy Rotation ==="
  /\ nth_error (console (turns w ParsedJson (main_schedule ParsedJson) n
                           (snd (main ParsedJson t0)))) 2
     = Some (ModeLine "Proxy rotation")
  /\ Forall (eq (Via (Some main_proxy)))
       (dispatched (turns w ParsedJson (main_schedule ParsedJson) n
                      (snd (main ParsedJson t0))))
  /\ Forall (eq "38.154.227.167:5868")
       (labels (console (turns w ParsedJson (main_schedule ParsedJson) n
                           (snd (main ParsedJson t0)))))
  /\ currentProxyIndex (self (turns w ParsedJson (main_schedule ParsedJson) n
                                (snd (main ParsedJson t0)))) = 0%Z
  /\ (sigint w = None -> no_overrun w (main_schedule ParsedJson) ->
      forall fuel, (20 <= fuel)%nat ->
      exists final,
        run w ParsedJson (main_schedule ParsedJson) fuel (snd (main ParsedJson t0))
        = Some final
        /\ emitted final = 10%nat).
Proof.
  cbn [main fst snd].
  assert (A : rotating [main_proxy]
                (turns w ParsedJson (main_schedule ParsedJson) n
                   (runContinuousTesting (main_schedule ParsedJson) t0
                      (new_tester main_targetUrl [main_proxy])))).
  { apply turns_invariant.
    - intros s s'. apply step_rotating. reflexivity.
    - constructor; cbn; [reflexivity|lia|constructor|constructor|constructor]. }
  split; [reflexivity|]. split; [apply mode_line_stays|].
  split; [|split; [|split]].
  - apply (Forall_impl _ (P := through [main_proxy])); [|exact (rt_routes A)].
    intros r (cfg & -> & [<-|[]]). reflexivity.
  - apply (Forall_impl _ (P := fun l => In l (map (fun cfg => label_of (Some cfg)) [main_proxy])));
      [|exact (rt_labels A)].
    intros l [<-|[]]. reflexivity.
  - pose proof (rt_cursor A) as B.
    change (JS.length [main_proxy]) with 1%Z in B. lia.
  - intros Q O fuel F.
    destruct (@run_without_overrun w ParsedJson (main_schedule ParsedJson)
                (new_tester main_targetUrl [main_proxy]) Q O main_tester_well_formed
                t0 fuel) as (final & R & C); [cbn; lia|].
    exists final. split; [exact R|exact (ac_emitted C)].
Qed.

(** Property X16.  [main] of the revision that prints the raw body: it
    prints the banner of the direct connection and starts a run every
    1100 ms with the proxy flag off.  The proxy it has configured is
    never used: every probe is direct, the instance is untouched, and a
    run that is not interrupted and in which no probe overruns prints
    ten results. *)
Theorem main_ignores_its_proxy (w : world) (t0 : N) (n : nat) :
  fst (main RawText t0) = "=== Testing Direct Connection ==="
  /\ period (main_schedule RawText) = 1100000000%N
  /\ nth_error (console (turns w RawText (main_schedule RawText) n
                           (snd (main RawText t0)))) 2
     = Some (ModeLine "Direct connection")
  /\ Forall (eq Direct)
       (dispatched (turns w RawText (main_schedule RawText) n (snd (main RawText t0))))
  /\ Forall (eq "direct")
       (labels (console (turns w RawText (main_schedule RawText) n
                           (snd (main RawText t0)))))
  /\ self (turns w RawText (main_schedule RawText) n (snd (main RawText t0)))
     = new_tester main_targetUrl [main_proxy]
  /\ (sigint w = None -> no_overrun w (main_schedule RawText) ->
      forall fuel, (20 <= fuel)%nat ->
      exists final,
        run w RawText (main_schedule RawText) fuel (snd (main RawText t0)) = Some final
        /\ emitted final = 10%nat).
Proof.
  cbn [main fst snd].
  assert (H : self (turns w RawText (main_schedule RawText) n
                      (runContinuousTesting (main_schedule RawText) t0
                         (new_tester main_targetUrl [main_proxy])))
              = new_tester main_targetUrl [main_proxy]
              /\ all_direct (turns w RawText (main_schedule RawText) n
                               (runContinuousTesting (main_schedule RawText) t0
                                  (new_tester main_targetUrl [main_proxy])))).
  { apply (@turns_invariant w RawText (main_schedule RawText)
             (fun s => self s = new_tester main_targetUrl [main_proxy] /\ all_direct s)).
    - intros s s'. apply step_direct_untouched. reflexivity.
    - split; [reflexivity|]. constructor; cbn; constructor. }
  destruct H as [E A].
  split; [reflexivity|]. split; [reflexivity|]. split; [apply mode_line_stays|].
  split; [exact (ad_routes A)|]. split; [exact (ad_labels A)|]. split; [exact E|].
  intros Q O fuel F.
  destruct (@run_without_overrun w RawText (main_schedule RawText)
              (new_tester main_targetUrl [main_proxy]) Q O main_tester_well_formed
              t0 fuel) as (final & R & C); [cbn; lia|].
  exists final. split; [exact R|exact (ac_emitted C)].
Qed.

End MainFacts.

(* ================================================================== *)
(** * The cursor across callbacks and runs *)

Module CursorFacts.

Import JS Prober Scheduler Spec ProberFacts SchedulerFacts RotationFacts DirectFacts.
Import Program Behaviour Samples LedgerFacts ModeFacts.

Open Scope string_scope.
Open Scope list_scope.

Lemma completions_app (a b : list line) :
  completions (a ++ b) = (completions a + completions b)%nat.
Proof. unfold completions. rewrite filter_app, length_app. reflexivity. Qed.

Lemma completions_callback (c : capture) (o : outcome LatencyResult) :
  completions (callback_lines c o) = 0%nat.
Proof.
  unfold callback_lines. rewrite completions_app.
  assert (E : completions match o with
                          | Returned r => fst (logResult c r)
                          | Raised _ => []
                          end = 0%nat).
  { destruct o as [r|e]; [|reflexivity]. log_cases c r; reflexivity. }
  rewrite E. destruct (callback_error c o); reflexivity.
Qed.

Lemma step_completions (w : world) (c : capture) (p : schedule) (s s' : sched) :
  (0 <= testsCompleted s)%Z
  /\ Z.of_nat (completions (console s)) = Z.max 0 (testsCompleted s - target p + 1) ->
  step w c p s = Some s' ->
  (0 <= testsCompleted s')%Z
  /\ Z.of_nat (completions (console s')) = Z.max 0 (testsCompleted s' - target p + 1).
Proof.
  intros [P H]. unfold step. destruct (next_event s) as [e|]; [|discriminate].
  destruct (interrupted_by w (event_time e)); intros [= <-].
  - cbn [interrupt console testsCompleted]. rewrite completions_app. cbn.
    split; [exact P|lia].
  - destruct e as [t|f rest]; cbn [handle].
    + destruct (tick_fields w c p t s) as (f & T & _). rewrite T. cbn. auto.
    + rewrite resume_testsCompleted, resume_console, !completions_app.
      split; [lia|]. unfold target in *.
      rewrite completions_callback.
      destruct (Z.geb_spec (testsCompleted s + 1) (count p)); cbn; lia.
Qed.

(** Property X17.  The notice of completion is printed by every
    callback that finds the counter at or above the count, not once: at
    every point of every run the console holds
    [max 0 (counter - max 1 count + 1)] such notices.  A run in which
    probes overrun the interval prints one more for each probe that was
    in flight when the count was reached. *)
Theorem completion_notice_repeats (w : world) (c : capture) (p : schedule)
    (t0 : N) (t : tester) (n : nat) :
  Z.of_nat (completions (console (turns w c p n (runContinuousTesting p t0 t))))
  = Z.max 0 (testsCompleted (turns w c p n (runContinuousTesting p t0 t))
             - Z.max 1 (count p) + 1).
Proof.
  apply (@turns_invariant w c p
           (fun s => (0 <= testsCompleted s)%Z
                     /\ Z.of_nat (completions (console s))
                        = Z.max 0 (testsCompleted s - target p + 1))).
  - intros s s'. apply step_completions.
  - cbn. unfold target. lia.
Qed.

Lemma step_cursor (w : world) (c : capture) (p : schedule)
    (pool : list ProxyConfig) (c0 : Z) (s s' : sched) :
  useProxy p = true ->
  rotating pool s
  /\ currentProxyIndex (self s) = ((c0 + testsCompleted s) mod JS.length pool)%Z ->
  step w c p s = Some s' ->
  rotating pool s'
  /\ currentProxyIndex (self s') = ((c0 + testsCompleted s') mod JS.length pool)%Z.
Proof.
  intros U [A C] H. split; [exact (@step_rotating w c p pool s s' U A H)|].
  revert H. unfold step. destruct (next_event s) as [e|] eqn:X; [|discriminate].
  destruct (interrupted_by w (event_time e)); intros [= <-]; [exact C|].
  destruct e as [t|f rest]; cbn [handle].
  - destruct (tick_fields w c p t s) as (f & T & _). rewrite T. exact C.
  - destruct (@next_event_flight _ s f rest X (rt_flights A))
      as [(cfg & r & Hin & Rf & Sf & Lf) _].
    rewrite resume_self, Sf, Rf, resume_testsCompleted. cbn [currentProxyIndex].
    rewrite (rt_pool A), C. pose proof (rt_cursor A) as B.
    assert (L : (0 < JS.length pool)%Z) by lia.
    unfold rem. rewrite Z.rem_mod_nonneg.
    + rewrite Zplus_mod_idemp_l. f_equal. lia.
    + pose proof (Z.mod_pos_bound (c0 + testsCompleted s) _ L). lia.
    + exact L.
Qed.

(** Property X18.  In proxy mode on an instance whose cursor points
    into its pool, the cursor has at every point of a run, overrunning or
    interrupted or not, advanced by one per callback that has ended:
    it is the starting cursor plus the counter, modulo the length of the
    pool, also when [logResult] threw. *)
Theorem cursor_counts_settled_probes (w : world) (c : capture) (p : schedule)
    (t0 : N) (t : tester) (n : nat) :
  proxy_mode p t = true ->
  well_formed t ->
  currentProxyIndex (self (turns w c p n (runContinuousTesting p t0 t)))
  = ((currentProxyIndex t
      + testsCompleted (turns w c p n (runContinuousTesting p t0 t)))
     mod JS.length (proxies t))%Z.
Proof.
  intros PM W.
  assert (U : useProxy p = true /\ (0 < JS.length (proxies t))%Z).
  { unfold proxy_mode in PM. apply andb_prop in PM. destruct PM as [U L].
    apply Z.ltb_lt in L. auto. }
  destruct U as [U L].
  assert (B : (0 <= currentProxyIndex t < JS.length (proxies t))%Z).
  { destruct W as [E|B]; [|exact B]. rewrite E in L. cbn in L. lia. }
  apply (@turns_invariant w c p
           (fun s => rotating (proxies t) s
                     /\ currentProxyIndex (self s)
                        = ((currentProxyIndex t + testsCompleted s)
                           mod JS.length (proxies t))%Z)).
  - intros s s'. apply step_cursor. exact U.
  - split.
    + constructor; cbn; [reflexivity|exact B|constructor|constructor|constructor].
    + cbn. rewrite Z.add_0_r, Z.mod_small by exact B. reflexivity.
Qed.

Lemma cursor_counts_settled_probes_witness :
  (proxy_mode (every_second true 2) (new_tester "https://example.test" [proxyA; proxyB]) = true
   /\ well_formed (new_tester "https://example.test" [proxyA; proxyB]))
  /\ currentProxyIndex
       (self (turns slow_world RawText (every_second true 2) 7
                (runContinuousTesting (every_second true 2) 0
                   (new_tester "https://example.test" [proxyA; proxyB]))))
     = ((currentProxyIndex (new_tester "https://example.test" [proxyA; proxyB])
         + testsCompleted
             (turns slow_world RawText (every_second true 2) 7
                (runContinuousTesting (every_second true 2) 0
                   (new_tester "https://example.test" [proxyA; proxyB]))))
        mod JS.length (proxies (new_tester "https://example.test" [proxyA; proxyB])))%Z.
Proof.
  assert (W : well_formed (new_tester "https://example.test" [proxyA; proxyB]))
    by (right; cbn; lia).
  split; [split; [reflexivity|exact W]|].
  apply (@cursor_counts_settled_probes slow_world RawText (every_second true 2) 0
           (new_tester "https://example.test" [proxyA; proxyB]) 7 eq_refl W).
Defined.

Lemma run_unique (w : world) (c : capture) (p : schedule) (f1 : nat) :
  forall f2 s a b,
    run w c p f1 s = Some a -> run w c p f2 s = Some b -> a = b.
Proof.
  induction f1 as [|f1 IH]; intros f2 s a b; cbn [run].
  - destruct (step w c p s) as [s'|] eqn:E; [discriminate|].
    intros [= <-]. destruct f2; cbn [run]; rewrite E; intros [= <-]; reflexivity.
  - destruct (step w c p s) as [s'|] eqn:E.
    + intros Ra. destruct f2 as [|f2]; cbn [run]; rewrite E; [discriminate|].
      intros Rb. exact (IH f2 s' a b Ra Rb).
    + intros [= <-]. destruct f2; cbn [run]; rewrite E; intros [= <-]; reflexivity.
Qed.

(** Property X19.  The cursor outlives a run.  After a run of [count]
    ticks in proxy mode on a fresh instance, a second run on the same
    instance does not start at the head of the pool again: its tick [k]
    goes through entry [(max 1 count + k) mod length] (runs uninterrupted,
    no probe overrunning). *)
Theorem rotation_continues_across_runs (w : world) (c : capture)
    (p1 p2 : schedule) (t0 t1 : N) (url : string) (pool : list ProxyConfig)
    (fuel : nat) (final : sched) (k : nat) :
  sigint w = None ->
  no_overrun w p1 ->
  no_overrun w p2 ->
  useProxy p1 = true ->
  useProxy p2 = true ->
  pool <> [] ->
  run w c p1 fuel (runContinuousTesting p1 t0 (new_tester url pool)) = Some final ->
  (Z.of_nat k < Z.max 1 (count p2))%Z ->
  nth_error
    (dispatched (turns w c p2 (2 * S k) (runContinuousTesting p2 t1 (self final)))) k
  = Some (Via (JS.index pool ((Z.max 1 (count p1) + Z.of_nat k) mod JS.length pool)%Z)).
Proof.
  intros Q O1 O2 U1 U2 NE R Hk.
  assert (L : (0 < JS.length pool)%Z).
  { unfold JS.length. destruct pool; [congruence|cbn; lia]. }
  assert (W : well_formed (new_tester url pool)) by (right; cbn; lia).
  assert (PM1 : proxy_mode p1 (new_tester url pool) = true).
  { unfold proxy_mode. rewrite U1. cbn. apply Z.ltb_lt. exact L. }
  destruct (@run_without_overrun w c p1 (new_tester url pool) Q O1 W t0
              (2 * Z.to_nat (target p1)) (le_n _)) as (final' & R' & A).
  rewrite (@run_unique w c p1 fuel _ _ final final' R R').
  assert (T : Z.of_nat (Z.to_nat (target p1)) = target p1) by (unfold target; lia).
  assert (S1 : self final'
               = {| targetUrl := url; proxies := pool;
                    currentProxyIndex := (target p1 mod JS.length pool)%Z |}).
  { pose proof (ac_url A) as Hu. pose proof (ac_pool A) as Hp.
    pose proof (ac_cursor A) as Hc. unfold cursor_at in Hc. rewrite PM1, T in Hc.
    cbn [new_tester targetUrl proxies currentProxyIndex] in Hu, Hp, Hc.
    rewrite Z.add_0_l in Hc.
    destruct (self final') as [u' p' c'].
    cbn [targetUrl proxies currentProxyIndex] in Hu, Hp, Hc.
    rewrite Hu, Hp, Hc. reflexivity. }
  rewrite S1.
  set (t2 := {| targetUrl := url; proxies := pool;
                currentProxyIndex := (target p1 mod JS.length pool)%Z |}).
  assert (W2 : well_formed t2).
  { right. cbn. apply Z.mod_pos_bound. exact L. }
  assert (PM2 : proxy_mode p2 t2 = true).
  { unfold proxy_mode. rewrite U2. cbn. apply Z.ltb_lt. exact L. }
  pose proof (@cycles w c p2 t2 Q O2 W2 t1 (S k) ltac:(unfold target; lia)) as A2.
  rewrite (ac_routes A2), nth_error_map_seq by lia.
  unfold route_at, rotation. rewrite PM2. cbn [proxies currentProxyIndex t2].
  rewrite Zplus_mod_idemp_l. reflexivity.
Qed.

Lemma rotation_continues_across_runs_witness :
  (sigint dead_world = None
   /\ no_overrun dead_world (every_second true 3)
   /\ no_overrun dead_world (every_second true 2)
   /\ useProxy (every_second true 3) = true
   /\ useProxy (every_second true 2) = true
   /\ [proxyA; proxyB] <> []
   /\ run dead_world RawText (every_second true 3) 6
        (runContinuousTesting (every_second true 3) 0
           (new_tester "https://example.test" [proxyA; proxyB]))
      = Some (turns dead_world RawText (every_second true 3) 6
                (runContinuousTesting (every_second true 3) 0
                   (new_tester "https://example.test" [proxyA; proxyB])))
   /\ (Z.of_nat 0 < Z.max 1 (count (every_second true 2)))%Z)
  /\ nth_error
       (dispatched
          (turns dead_world RawText (every_second true 2) (2 * 1)
             (runContinuousTesting (every_second true 2) 5000000000
                (self (turns dead_world RawText (every_second true 3) 6
                         (runContinuousTesting (every_second true 3) 0
                            (new_tester "https://example.test" [proxyA; proxyB])))))))
       0
     = Some (Via (JS.index [proxyA; proxyB]
                    ((Z.max 1 (count (every_second true 3)) + Z.of_nat 0)
                     mod JS.length [proxyA; proxyB])%Z)).
Proof.
  assert (O3 : no_overrun dead_world (every_second true 3))
    by (intros t req; reflexivity).
  assert (O2 : no_overrun dead_world (every_second true 2))
    by (intros t req; reflexivity).
  assert (R : run dead_world RawText (every_second true 3) 6
                (runContinuousTesting (every_second true 3) 0
                   (new_tester "https://example.test" [proxyA; proxyB]))
              = Some (turns dead_world RawText (every_second true 3) 6
                        (runContinuousTesting (every_second true 3) 0
                           (new_tester "https://example.test" [proxyA; proxyB]))))
    by (vm_compute; reflexivity).
  split.
  - split; [reflexivity|]. split; [exact O3|]. split; [exact O2|].
    split; [reflexivity|]. split; [reflexivity|]. split; [discriminate|].
    split; [exact R|]. cbn [every_second count]. lia.
  - apply (@rotation_continues_across_runs dead_world RawText
             (every_second true 3) (every_second true 2) 0 5000000000
             "https://example.test" [proxyA; proxyB] 6 _ 0
             eq_refl O3 O2 eq_refl eq_refl ltac:(discriminate) R
             ltac:(cbn [every_second count]; lia)).
Defined.

End CursorFacts.

(* ================================================================== *)
(** * Labels *)

Module LabelFacts.

Import JS Prober Scheduler Spec ProberFacts SchedulerFacts Behaviour.

Open Scope string_scope.
Open Scope list_scope.

Lemma all_from_spec (f : Z -> bool) (n : nat) :
  forall start, all_from f start n = true ->
  forall z, (start <= z < start + Z.of_nat n)%Z -> f z = true.
Proof.
  induction n as [|n IH]; intros start H z B; [lia|].
  cbn [all_from] in H. apply andb_prop in H. destruct H as [H0 H].
  destruct (Z.eq_dec z start) as [->|N]; [exact H0|].
  apply (IH (start + 1)%Z H). lia.
Qed.

Lemma ports_print_digits :
  all_from (fun z => String.eqb (string_of_number z) (digits z)) 0 (Z.to_nat 65536)
  = true.
Proof. vm_compute. reflexivity. Qed.



(** From [1e21] on a number is printed with an exponent. *)
Example large_port_label :
  label_of (Some {| ip := "h"; port := 10 ^ 21; username := "u"; password := "p" |})
  = "h:1e+21".
Proof. vm_compute. reflexivity. Qed.

End LabelFacts.
